(** * ec2_vpc_net: reconciliation of one VPC against a desired description

    Shallow embedding of [lib/ansible/modules/cloud/amazon/ec2_vpc_net.py].
    The module talks to the provider through a boto [VPCConnection]; here the
    connection is an interface over an abstract provider state [W], every
    method may raise, and every method call is appended to a call log so that
    statements about "which remote calls were made" can be written down.

    [module.exit_json] and [module.fail_json] terminate the Python process
    (they raise [SystemExit], which no [except Exception] clause catches);
    they are two of the four outcomes of a computation. *)

From stdpp Require Import gmap strings list fin_maps pretty.

Open Scope string_scope.
Open Scope list_scope.

(** ** Data *)

(** Python exceptions, as far as the [except] clauses of the module tell them
    apart: [except BotoServerError] catches the first constructor only,
    [except Exception] catches all of them. *)
Inductive exn :=
  | BotoServerError (text : string)
  | IndexError
  | TypeError
  | OtherException (text : string).

(** [str(e)]. *)
Definition str (e : exn) : string :=
  match e with
  | BotoServerError t => t
  | IndexError => "list index out of range"
  | TypeError => "is not JSON serializable"
  | OtherException t => t
  end.

Inductive tenancy_choice := tenancy_default | tenancy_dedicated.
Inductive state_choice := present | absent.

(** The attributes of a boto VPC object that the module reads or returns
    (see the RETURN block of the module). [classic_link_enabled] is [None]
    on the objects that [get_all_vpcs] and [create_vpc] hand out. *)
Record vpc_object := VPC {
  vpc_id : string;
  vpc_cidr_block : string;
  vpc_state : string;
  vpc_tags : gmap string string;
  vpc_dhcp_options_id : string;
  vpc_instance_tenancy : tenancy_choice;
  vpc_is_default : bool;
  vpc_classic_link_enabled : option bool
}.

(** [module.params], after the argument spec has applied its defaults. *)
Record params := Params {
  name : string;
  cidr_block : string;
  tenancy : tenancy_choice;
  dns_support : bool;
  dns_hostnames : bool;
  dhcp_opts_id : option string;
  tags : option (gmap string string);
  state : state_choice;
  multi_ok : bool
}.

(** Keyword arguments of [module.exit_json]: [changed] is always given, [vpc]
    is not given on the check-mode exit of line 277 ([None] here), and is
    [get_vpc_values(vpc_obj)] elsewhere, which is itself [None] or a record. *)
Record result := Result {
  changed : bool;
  vpc : option (option vpc_object)
}.

(** The resource a caller sees in a result: absent when the key is missing or
    its value is [None]. *)
Definition resource (r : result) : option vpc_object := mjoin (vpc r).

(** The two ways the module calls [get_all_vpcs]. *)
Inductive vpc_query :=
  | ByFilters (tag_Name cidr : string)
  | ByIds (id : string).

(** The two keyword forms of [modify_vpc_attribute] used by the module. *)
Inductive vpc_attribute :=
  | enable_dns_support (b : bool)
  | enable_dns_hostnames (b : bool).

(** One entry of the call log per method of the connection. *)
Inductive call :=
  | GetAllVpcs (q : vpc_query)
  | CreateVpc (cidr : string) (t : tenancy_choice)
  | DeleteVpc (id : string)
  | GetAllTags (id : string)
  | CreateTags (id : string) (tgs : gmap string string)
  | AssociateDhcpOptions (dhcp_id id : string)
  | ModifyVpcAttribute (id : string) (a : vpc_attribute).

(** The methods that write to the provider. *)
Definition is_mutating (c : call) : bool :=
  match c with
  | GetAllVpcs _ | GetAllTags _ => false
  | _ => true
  end.

(** The filtered lookup ([find] of the interface description). *)
Definition is_find (c : call) : bool :=
  match c with GetAllVpcs (ByFilters _ _) => true | _ => false end.

Definition is_getTags (c : call) : bool :=
  match c with GetAllTags _ => true | _ => false end.

(** ** The connection *)

(** A boto VPC connection over provider state [W]: each method returns its
    value or raises, and leaves a provider state behind in both cases. *)
Class VPCConnection (W : Type) := {
  get_all_vpcs : vpc_query → W → (exn + list vpc_object) * W;
  create_vpc : string → tenancy_choice → W → (exn + vpc_object) * W;
  delete_vpc : string → W → (exn + unit) * W;
  get_all_tags : string → W → (exn + list (string * string)) * W;
  create_tags : string → gmap string string → W → (exn + unit) * W;
  associate_dhcp_options : string → string → W → (exn + unit) * W;
  modify_vpc_attribute : string → vpc_attribute → W → (exn + unit) * W
}.

(** ** Computations *)

Inductive outcome (A : Type) :=
  | Val (a : A)
  | ExitJson (r : result)
  | FailJson (msg : string)
  | Uncaught (e : exn).
Arguments Val {A} a.
Arguments ExitJson {A} r.
Arguments FailJson {A} msg.
Arguments Uncaught {A} e.

(** A computation threads the provider state and the call log. *)
Definition M (W A : Type) : Type := W → list call → outcome A * W * list call.

Global Instance M_ret {W} : MRet (M W) := λ A a w l, (Val a, w, l).

Global Instance M_bind {W} : MBind (M W) := λ A B f m w l,
  match m w l with
  | (Val a, w', l') => f a w' l'
  | (ExitJson r, w', l') => (ExitJson r, w', l')
  | (FailJson msg, w', l') => (FailJson msg, w', l')
  | (Uncaught e, w', l') => (Uncaught e, w', l')
  end.

Definition exit_json {W A} (r : result) : M W A := λ w l, (ExitJson r, w, l).
Definition fail_json {W A} (msg : string) : M W A := λ w l, (FailJson msg, w, l).
Definition raise {W A} (e : exn) : M W A := λ w l, (Uncaught e, w, l).

(** [module.fail_json(msg=e)] with the exception object itself as message
    (lines 279, 286 and 293): [fail_json] cannot put an exception object
    into its result, so the call raises [TypeError] where it stands and no
    failure message is produced. *)
Definition fail_json_exception {W A} (e : exn) : M W A := raise TypeError.

(** A method call on the connection: logged, then its value or exception. *)
Definition invoke {W A} (c : call) (op : W → (exn + A) * W) : M W A := λ w l,
  match op w with
  | (inr a, w') => (Val a, w', l ++ [c])
  | (inl e, w') => (Uncaught e, w', l ++ [c])
  end.

(** [try: body except Exception as e: handler(e)]. *)
Definition try_except_Exception {W A} (body : M W A) (handler : exn → M W A) : M W A :=
  λ w l,
  match body w l with
  | (Uncaught e, w', l') => handler e w' l'
  | r => r
  end.

(** [try: body except BotoServerError as e: handler(e)]. *)
Definition try_except_BotoServerError {W A} (body : M W A) (handler : exn → M W A)
  : M W A := λ w l,
  match body w l with
  | (Uncaught (BotoServerError t), w', l') => handler (BotoServerError t) w' l'
  | r => r
  end.

(** Running a computation from a provider state with an empty call log. *)
Definition run {W A} (m : M W A) (w : W) : outcome A * W * list call := m w [].

(** ** The module *)

(** [dict(pairs)]: later pairs override earlier ones. *)
Definition dict (pairs : list (string * string)) : gmap string string :=
  foldl (λ m kv, <[kv.1 := kv.2]> m) ∅ pairs.

(** Messages of the two failures the module raises on its own account. *)
Definition ValidationError : string :=
  "In order to enable DNS Hostnames you must also enable DNS support".

Definition AmbiguousResourceError (n : nat) : string :=
  "Currently there are " +:+ pretty n +:+
  " VPCs that have the same name and CIDR block you specified. If you would like to create the VPC anyway please pass True to the multi_ok param.".

(** Suffix the module appends to the provider's message when a delete fails. *)
Definition DependencyError (e_msg : string) : string :=
  e_msg +:+
  ". You may want to use the ec2_vpc_subnet, ec2_vpc_igw, and/or ec2_vpc_route_table modules to ensure the other components are absent.".

Section Reconciler.
Context {W : Type} `{conn : !VPCConnection W}.

(** [ansible.module_utils.ec2.boto_exception] renders an exception as a
    message; its text is of no concern here. *)
Variable boto_exception : exn → string.

(** Lines 149-171. *)
Definition vpc_exists (name cidr_block : string) (multi : bool) : M W (option vpc_object) :=
  matching_vpcs ←
    try_except_Exception
      (invoke (GetAllVpcs (ByFilters name cidr_block))
              (get_all_vpcs (ByFilters name cidr_block)))
      (λ e, fail_json (boto_exception e));
  if multi then mret None
  else if bool_decide (length matching_vpcs = 1) then
    match matching_vpcs with
    | v :: _ => mret (Some v)
    | [] => raise IndexError
    end
  else if bool_decide (1 < length matching_vpcs) then
    fail_json (AmbiguousResourceError (length matching_vpcs))
  else mret None.

(** Lines 176-179: the tags compared with, and written to, the provider. *)
Definition effective_tags (tags : option (gmap string string)) (name : string)
  : gmap string string :=
  <["Name" := name]> (default ∅ tags).

(** Lines 174-190. *)
Definition update_vpc_tags (check_mode : bool) (vpc_obj : vpc_object)
    (tags : option (gmap string string)) (name : string) : M W bool :=
  let tags := effective_tags tags name in
  try_except_Exception
    (pairs ← invoke (GetAllTags (vpc_id vpc_obj)) (get_all_tags (vpc_id vpc_obj));
     let current_tags := dict pairs in
     if bool_decide (tags ≠ current_tags) then
       (if negb check_mode then
          invoke (CreateTags (vpc_id vpc_obj) tags) (create_tags (vpc_id vpc_obj) tags)
        else mret ());;
       mret true
     else mret false)
    (λ e, fail_json (boto_exception e)).

(** Lines 193-200. *)
Definition update_dhcp_opts (check_mode : bool) (vpc_obj : vpc_object) (dhcp_id : string)
  : M W bool :=
  if bool_decide (vpc_dhcp_options_id vpc_obj ≠ dhcp_id) then
    (if negb check_mode then
       invoke (AssociateDhcpOptions dhcp_id (vpc_id vpc_obj))
              (associate_dhcp_options dhcp_id (vpc_id vpc_obj))
     else mret ());;
    mret true
  else mret false.

(** Lines 203-215; [region], [item] and [connection] are not among the
    attributes kept in [vpc_object], so dropping them leaves the record as it is. *)
Definition get_vpc_values (vpc_obj : option vpc_object) : option vpc_object := vpc_obj.

(** Lines 269-279: lookup, and creation when nothing is bound. Yields the
    [changed] flag so far and the bound object. *)
Definition present_lookup (p : params) (check_mode : bool) : M W (bool * vpc_object) :=
  vpc_obj ← vpc_exists (name p) (cidr_block p) (multi_ok p);
  match vpc_obj with
  | None =>
      try_except_BotoServerError
        (if negb check_mode then
           v ← invoke (CreateVpc (cidr_block p) (tenancy p))
                      (create_vpc (cidr_block p) (tenancy p));
           mret (true, v)
         else exit_json {| changed := true; vpc := None |})
        (λ e, fail_json_exception e)
  | Some v => mret (false, v)
  end.

(** Lines 281-286. *)
Definition present_dhcp (p : params) (check_mode : bool) (changed : bool)
    (vpc_obj : vpc_object) : M W bool :=
  match dhcp_opts_id p with
  | Some dhcp_id =>
      try_except_BotoServerError
        (b ← update_dhcp_opts check_mode vpc_obj dhcp_id;
         mret (b || changed))
        (λ e, fail_json_exception e)
  | None => mret changed
  end.

(** Lines 288-293. [name] is a required string parameter, so the test
    [tags is not None or name is not None] always passes. *)
Definition present_tags (p : params) (check_mode : bool) (changed : bool)
    (vpc_obj : vpc_object) : M W bool :=
  if negb (bool_decide (tags p = None)) || true then
    try_except_BotoServerError
      (b ← update_vpc_tags check_mode vpc_obj (tags p) (name p);
       mret (b || changed))
      (λ e, fail_json_exception e)
  else mret changed.

(** Lines 298-304: the DNS attributes are written on every real run. *)
Definition present_dns (p : params) (check_mode : bool) (vpc_obj : vpc_object) : M W unit :=
  try_except_BotoServerError
    (if negb check_mode then
       invoke (ModifyVpcAttribute (vpc_id vpc_obj) (enable_dns_support (dns_support p)))
              (modify_vpc_attribute (vpc_id vpc_obj) (enable_dns_support (dns_support p)));;
       invoke (ModifyVpcAttribute (vpc_id vpc_obj) (enable_dns_hostnames (dns_hostnames p)))
              (modify_vpc_attribute (vpc_id vpc_obj) (enable_dns_hostnames (dns_hostnames p)))
     else mret ())
    (λ e, fail_json (boto_exception e)).

(** Lines 306-312: [connection.get_all_vpcs(vpc_obj.id)[0]]. *)
Definition present_refetch (check_mode : bool) (vpc_obj : vpc_object) : M W vpc_object :=
  if negb check_mode then
    try_except_BotoServerError
      (l ← invoke (GetAllVpcs (ByIds (vpc_id vpc_obj)))
                  (get_all_vpcs (ByIds (vpc_id vpc_obj)));
       match l with
       | v :: _ => mret v
       | [] => raise IndexError
       end)
      (λ e, fail_json (boto_exception e))
  else mret vpc_obj.

(** Lines 298-314: what is left of the [present] branch once the tag step
    is over. *)
Definition present_finish (p : params) (check_mode : bool) (changed : bool)
    (vpc_obj : vpc_object) : M W unit :=
  present_dns p check_mode vpc_obj;;
  vpc_obj ← present_refetch check_mode vpc_obj;
  exit_json {| changed := changed; vpc := Some (get_vpc_values (Some vpc_obj)) |}.

(** Lines 269-293: the [present] branch up to and including the tag step. *)
Definition present_diff (p : params) (check_mode : bool) : M W (bool * vpc_object) :=
  '(changed, vpc_obj) ← present_lookup p check_mode;
  changed ← present_dhcp p check_mode changed vpc_obj;
  changed ← present_tags p check_mode changed vpc_obj;
  mret (changed, vpc_obj).

(** Lines 266-314. *)
Definition main_present (p : params) (check_mode : bool) : M W unit :=
  '(changed, vpc_obj) ← present_diff p check_mode;
  present_finish p check_mode changed vpc_obj.

(** Lines 316-332. *)
Definition main_absent (p : params) (check_mode : bool) : M W unit :=
  vpc_obj ← vpc_exists (name p) (cidr_block p) (multi_ok p);
  '(changed, vpc_obj) ←
    match vpc_obj with
    | Some v =>
        try_except_BotoServerError
          ((if negb check_mode then
              invoke (DeleteVpc (vpc_id v)) (delete_vpc (vpc_id v))
            else mret ());;
           mret (true, None))
          (λ e, fail_json (DependencyError (boto_exception e)))
    | None => mret (false, None)
    end;
  exit_json {| changed := changed; vpc := Some (get_vpc_values vpc_obj) |}.

(** Lines 263-332 of [main], from the point where the connection exists. *)
Definition main (p : params) (check_mode : bool) : M W unit :=
  (if dns_hostnames p && negb (dns_support p) then fail_json ValidationError
   else mret ());;
  match state p with
  | present => main_present p check_mode
  | absent => main_absent p check_mode
  end.

End Reconciler.

(** ** A reference provider *)

(** Modelled from the spec: the NetworkResourceService behind the connection
    (boto and the provider are not part of the repository). VPCs are keyed by
    their id; [find] filters on the [Name] tag and the CIDR block; [create]
    picks an unused id and starts with no tags and the account's default DHCP
    options; [setTags] adds the given tags, overwriting those with the same
    key and removing none, as the [create_tags] call behind it does;
    [associateDhcpOptions] needs a known DHCP options id; [delete] is refused
    while other resources depend on the VPC; every method given an unknown
    VPC id raises, except [getTags], which finds nothing. *)
Module Cloud.

Record entry := Entry {
  e_cidr_block : string;
  e_state : string;
  e_tags : gmap string string;
  e_dhcp_options_id : string;
  e_instance_tenancy : tenancy_choice;
  e_is_default : bool;
  e_classic_link_enabled : option bool;
  e_dns_support : bool;
  e_dns_hostnames : bool;
  e_dependents : bool
}.

Record t := Make {
  vpcs : gmap string entry;
  dhcp_options : gset string;
  default_dhcp_options_id : string
}.

Definition to_vpc (kv : string * entry) : vpc_object :=
  {| vpc_id := kv.1;
     vpc_cidr_block := e_cidr_block kv.2;
     vpc_state := e_state kv.2;
     vpc_tags := e_tags kv.2;
     vpc_dhcp_options_id := e_dhcp_options_id kv.2;
     vpc_instance_tenancy := e_instance_tenancy kv.2;
     vpc_is_default := e_is_default kv.2;
     vpc_classic_link_enabled := e_classic_link_enabled kv.2 |}.

Definition matches (tag_Name cidr : string) (kv : string * entry) : Prop :=
  e_tags kv.2 !! "Name" = Some tag_Name ∧ e_cidr_block kv.2 = cidr.

Global Instance matches_dec n c kv : Decision (matches n c kv).
Proof. unfold matches. apply _. Defined.

Definition not_found {A} (id : string) (c : t) : (exn + A) * t :=
  (inl (BotoServerError ("InvalidVpcID.NotFound: " +:+ id)), c).

Definition with_vpcs (c : t) (m : gmap string entry) : t :=
  {| vpcs := m; dhcp_options := dhcp_options c;
     default_dhcp_options_id := default_dhcp_options_id c |}.

Definition add_tags (tgs : gmap string string) (e : entry) : entry :=
  {| e_cidr_block := e_cidr_block e; e_state := e_state e;
     e_tags := tgs ∪ e_tags e;
     e_dhcp_options_id := e_dhcp_options_id e;
     e_instance_tenancy := e_instance_tenancy e; e_is_default := e_is_default e;
     e_classic_link_enabled := e_classic_link_enabled e;
     e_dns_support := e_dns_support e; e_dns_hostnames := e_dns_hostnames e;
     e_dependents := e_dependents e |}.

Definition set_dhcp (d : string) (e : entry) : entry :=
  {| e_cidr_block := e_cidr_block e; e_state := e_state e; e_tags := e_tags e;
     e_dhcp_options_id := d;
     e_instance_tenancy := e_instance_tenancy e; e_is_default := e_is_default e;
     e_classic_link_enabled := e_classic_link_enabled e;
     e_dns_support := e_dns_support e; e_dns_hostnames := e_dns_hostnames e;
     e_dependents := e_dependents e |}.

Definition set_attribute (a : vpc_attribute) (e : entry) : entry :=
  {| e_cidr_block := e_cidr_block e; e_state := e_state e; e_tags := e_tags e;
     e_dhcp_options_id := e_dhcp_options_id e;
     e_instance_tenancy := e_instance_tenancy e; e_is_default := e_is_default e;
     e_classic_link_enabled := e_classic_link_enabled e;
     e_dns_support :=
       match a with enable_dns_support b => b | _ => e_dns_support e end;
     e_dns_hostnames :=
       match a with enable_dns_hostnames b => b | _ => e_dns_hostnames e end;
     e_dependents := e_dependents e |}.

Definition new_entry (c : t) (cidr : string) (tn : tenancy_choice) : entry :=
  {| e_cidr_block := cidr; e_state := "available"; e_tags := ∅;
     e_dhcp_options_id := default_dhcp_options_id c;
     e_instance_tenancy := tn; e_is_default := false;
     e_classic_link_enabled := None;
     e_dns_support := true; e_dns_hostnames := false;
     e_dependents := false |}.

Definition find (q : vpc_query) (c : t) : (exn + list vpc_object) * t :=
  match q with
  | ByFilters n cidr => (inr (to_vpc <$> map_to_list (filter (matches n cidr) (vpcs c))), c)
  | ByIds id =>
      match vpcs c !! id with
      | Some e => (inr [to_vpc (id, e)], c)
      | None => not_found id c
      end
  end.

Definition create (cidr : string) (tn : tenancy_choice) (c : t)
  : (exn + vpc_object) * t :=
  let id := fresh (dom (vpcs c)) in
  let e := new_entry c cidr tn in
  (inr (to_vpc (id, e)), with_vpcs c (<[id := e]> (vpcs c))).

Definition delete (id : string) (c : t) : (exn + unit) * t :=
  match vpcs c !! id with
  | Some e =>
      if e_dependents e then
        (inl (BotoServerError ("DependencyViolation: " +:+ id)), c)
      else (inr (), with_vpcs c (base.delete id (vpcs c)))
  | None => not_found id c
  end.

Definition getTags (id : string) (c : t) : (exn + list (string * string)) * t :=
  match vpcs c !! id with
  | Some e => (inr (map_to_list (e_tags e)), c)
  | None => (inr [], c)
  end.

Definition update (f : entry → entry) (id : string) (c : t) : (exn + unit) * t :=
  match vpcs c !! id with
  | Some e => (inr (), with_vpcs c (<[id := f e]> (vpcs c)))
  | None => not_found id c
  end.

Definition setTags (id : string) (tgs : gmap string string) (c : t)
  : (exn + unit) * t := update (add_tags tgs) id c.

Definition associateDhcpOptions (dhcp_id id : string) (c : t) : (exn + unit) * t :=
  if bool_decide (dhcp_id ∈ dhcp_options c) then update (set_dhcp dhcp_id) id c
  else (inl (BotoServerError ("InvalidDhcpOptionsID.NotFound: " +:+ dhcp_id)), c).

Definition setDnsAttribute (id : string) (a : vpc_attribute) (c : t)
  : (exn + unit) * t := update (set_attribute a) id c.

Global Instance connection : VPCConnection t := {|
  get_all_vpcs := find;
  create_vpc := create;
  delete_vpc := delete;
  get_all_tags := getTags;
  create_tags := setTags;
  associate_dhcp_options := associateDhcpOptions;
  modify_vpc_attribute := setDnsAttribute
|}.

(** An account with no VPC and one DHCP options set besides the default. *)
Definition empty : t :=
  {| vpcs := ∅; dhcp_options := {["dopt-default"; "dopt-67236184"]};
     default_dhcp_options_id := "dopt-default" |}.

End Cloud.

(** ** Transport failures *)

(** Modelled from the spec: a RemoteServiceError can end any remote call.
    The provider state is paired with the number of calls that still get
    through; once it is used up every call raises and changes nothing. *)
Module Flaky.

Definition guard {W A} (op : W → (exn + A) * W) (s : W * nat) : (exn + A) * (W * nat) :=
  match s.2 with
  | O => (inl (BotoServerError "RequestTimeout"), s)
  | S n => let '(r, w) := op s.1 in (r, (w, n))
  end.

Global Instance connection {W} `{!VPCConnection W} : VPCConnection (W * nat) := {|
  get_all_vpcs q := guard (get_all_vpcs q);
  create_vpc cidr tn := guard (create_vpc cidr tn);
  delete_vpc id := guard (delete_vpc id);
  get_all_tags id := guard (get_all_tags id);
  create_tags id tgs := guard (create_tags id tgs);
  associate_dhcp_options d id := guard (associate_dhcp_options d id);
  modify_vpc_attribute id a := guard (modify_vpc_attribute id a)
|}.

End Flaky.

(** * Vocabulary of the properties *)

(** The invariant of a desired state: host names need DNS support. *)
Definition valid (p : params) : Prop := dns_hostnames p = true → dns_support p = true.

Definition outcome_of {W A} (r : outcome A * W * list call) : outcome A := r.1.1.
Definition world_of {W A} (r : outcome A * W * list call) : W := r.1.2.
Definition calls_of {W A} (r : outcome A * W * list call) : list call := r.2.

(** [emits P m]: whatever the provider answers, [m] only adds calls that
    satisfy [P] to the log, and keeps what was logged before. *)
Definition emits {W A} (P : call → Prop) (m : M W A) : Prop :=
  ∀ w l, ∃ l', calls_of (m w l) = l ++ l' ∧ Forall P l'.

(** ** Predicates on runs and on the reference provider *)

(** The sentence C9 set out to state: no failure after the DNS step. *)
Definition no_failure_after_dns (W : Type) `{!VPCConnection W}
    (boto_exception : exn → string) : Prop :=
  ∀ p check_mode changed v (w w1 : W) l l1,
    present_dns boto_exception p check_mode v w l = (Val (), w1, l1) →
    ∃ r w' l', present_finish boto_exception p check_mode changed v w l
               = (ExitJson r, w', l').





(** ** Concrete parameters and provider states *)

(** The parameters of the scenario: one VPC, default options. *)
Definition app_vpc : params :=
  {| name := "app-vpc"; cidr_block := "10.0.0.0/16"; tenancy := tenancy_default;
     dns_support := true; dns_hostnames := true; dhcp_opts_id := None;
     tags := None; state := present; multi_ok := false |}.

Definition with_multi_ok (b : bool) (p : params) : params :=
  {| name := name p; cidr_block := cidr_block p; tenancy := tenancy p;
     dns_support := dns_support p; dns_hostnames := dns_hostnames p;
     dhcp_opts_id := dhcp_opts_id p; tags := tags p; state := state p;
     multi_ok := b |}.

Definition with_state (s : state_choice) (p : params) : params :=
  {| name := name p; cidr_block := cidr_block p; tenancy := tenancy p;
     dns_support := dns_support p; dns_hostnames := dns_hostnames p;
     dhcp_opts_id := dhcp_opts_id p; tags := tags p; state := s;
     multi_ok := multi_ok p |}.

(** The provider after [k] real runs of [p], starting from [c]. *)
Fixpoint after_runs (k : nat) (p : params) (c : Cloud.t) : Cloud.t :=
  match k with
  | O => c
  | S k => after_runs k p (world_of (run (main str p false) c))
  end.

(** A VPC object as the provider might hand it out. *)
Definition sample_vpc : vpc_object :=
  {| vpc_id := "vpc-b883b2c4"; vpc_cidr_block := "10.0.0.0/16";
     vpc_state := "available"; vpc_tags := ∅;
     vpc_dhcp_options_id := "dopt-default";
     vpc_instance_tenancy := tenancy_default; vpc_is_default := false;
     vpc_classic_link_enabled := None |}.

(** Host names wanted, DNS support switched off. *)
Definition hostnames_without_support : params :=
  {| name := "app-vpc"; cidr_block := "10.0.0.0/16"; tenancy := tenancy_default;
     dns_support := false; dns_hostnames := true; dhcp_opts_id := None;
     tags := None; state := present; multi_ok := false |}.

(** A [Name] tag that disagrees with the [name] parameter, and a DHCP options
    id that is not the account's default. *)
Definition renamed : params :=
  {| name := "Y"; cidr_block := "10.0.0.0/16"; tenancy := tenancy_default;
     dns_support := true; dns_hostnames := true;
     dhcp_opts_id := Some "dopt-67236184";
     tags := Some {["Name" := "X"]}; state := present; multi_ok := false |}.

(** The provider after one run of the scenario, and after two runs that
    allowed duplicates. *)
Definition one_vpc : Cloud.t := after_runs 1 app_vpc Cloud.empty.
Definition two_vpcs : Cloud.t := after_runs 2 (with_multi_ok true app_vpc) Cloud.empty.

Definition matches_in (c : Cloud.t) : list vpc_object :=
  match get_all_vpcs (ByFilters "app-vpc" "10.0.0.0/16") c with
  | (inr vs, _) => vs
  | _ => []
  end.

Definition first_match (c : Cloud.t) : vpc_object := default sample_vpc (head (matches_in c)).

Definition exit_of {W A} (r : outcome A * W * list call) : result :=
  match outcome_of r with
  | ExitJson r => r
  | _ => {| changed := false; vpc := None |}
  end.

(** The value a computation stopped with, or [d] when it did not. *)
Definition val_of {W A} (d : A) (r : outcome A * W * list call) : A :=
  match outcome_of r with Val a => a | _ => d end.

(** The object the scenario holds when it reaches the DNS step. *)
Definition created_vpc : vpc_object :=
  (val_of (false, sample_vpc) (run (present_diff str app_vpc false) Cloud.empty)).2.

(** ** Predicates on outcomes and on calls *)

(** An outcome the caller of the module gets to see as a result or as a
    failure message, or an exception other than [BotoServerError]. *)
Definition reported {A} (o : outcome A) : Prop :=
  match o with
  | Val _ | Uncaught (BotoServerError _) => False
  | _ => True
  end.

(** No [BotoServerError] leaves the computation. *)
Definition contains_boto_errors {W A} (m : M W A) : Prop :=
  ∀ w l, match outcome_of (m w l) with
         | Uncaught (BotoServerError _) => False
         | _ => True
         end.

(** The computation does not fall through to what follows it. *)
Definition terminal {W A} (m : M W A) : Prop :=
  ∀ w l, match outcome_of (m w l) with Val _ => False | _ => True end.

Definition is_create (c : call) : bool :=
  match c with CreateVpc _ _ => true | _ => false end.

Definition is_delete (c : call) : bool :=
  match c with DeleteVpc _ => true | _ => false end.

(** The calls that the [changed] flag accounts for: every write but the two
    DNS attribute writes. *)
Definition counted_write (c : call) : bool :=
  match c with
  | CreateVpc _ _ | DeleteVpc _ | CreateTags _ _ | AssociateDhcpOptions _ _ => true
  | _ => false
  end.

(** Lines 281-314: the [present] branch from the DHCP step on, given the flag
    and the object the lookup step hands over. *)
Definition present_after_lookup {W} `{!VPCConnection W} (boto_exception : exn → string)
    (p : params) (check_mode : bool) (cv : bool * vpc_object) : M W unit :=
  ch1 ← present_dhcp p check_mode cv.1 cv.2;
  ch2 ← present_tags boto_exception p check_mode ch1 cv.2;
  present_finish boto_exception p check_mode ch2 cv.2.

(** Whenever the computation ends with an uncaught exception, it has just
    made a call that satisfies [Q]. *)
Definition raises_after {W A} (Q : call → Prop) (m : M W A) : Prop :=
  ∀ w l e w' l', m w l = (Uncaught e, w', l') → ∃ l0 c, l' = l0 ++ [c] ∧ Q c.

(** The calls after which a run can end with an uncaught exception: the
    module lets their exceptions other than [BotoServerError] through, and
    the handlers of lines 279 and 286 die on a [BotoServerError]. *)
Definition unguarded (c : call) : Prop :=
  match c with
  | CreateVpc _ _ | AssociateDhcpOptions _ _ | ModifyVpcAttribute _ _ | DeleteVpc _
  | GetAllVpcs (ByIds _) => True
  | _ => False
  end.

(** ** The object dictionary behind [get_vpc_values] *)

(** Values found in the [__dict__] of a boto VPC object: strings, booleans,
    [None], the tag mapping, and the objects ([region], [connection], [item])
    that cannot go into a JSON result. *)
Inductive attr :=
  | AStr (s : string)
  | ABool (b : bool)
  | ANone
  | ATags (m : gmap string string)
  | AObject (what : string).

Module ObjectDict.

(** Lines 203-215 on the dictionary itself. [vpc_values] is the object's
    own [__dict__], so the dictionary returned is also what the object is
    left with. *)
Definition get_vpc_values (vpc_obj : option (gmap string attr))
  : option (gmap string attr) :=
  match vpc_obj with
  | Some vpc_values =>
      let vpc_values :=
        if bool_decide ("region" ∈ dom vpc_values) then delete "region" vpc_values
        else vpc_values in
      let vpc_values :=
        if bool_decide ("item" ∈ dom vpc_values) then delete "item" vpc_values
        else vpc_values in
      let vpc_values :=
        if bool_decide ("connection" ∈ dom vpc_values)
        then delete "connection" vpc_values
        else vpc_values in
      Some vpc_values
  | None => None
  end.

Definition tenancy_str (t : tenancy_choice) : string :=
  match t with tenancy_default => "default" | tenancy_dedicated => "dedicated" end.

(** A flag that may not have been filled in. *)
Definition flag (o : option bool) : attr :=
  match o with Some b => ABool b | None => ANone end.

Definition read_flag (a : attr) : option (option bool) :=
  match a with
  | ABool b => Some (Some b)
  | ANone => Some None
  | _ => None
  end.

Definition read_tenancy (tn : string) : option tenancy_choice :=
  if bool_decide (tn = "default") then Some tenancy_default
  else if bool_decide (tn = "dedicated") then Some tenancy_dedicated
  else None.

(** The dictionary of a VPC object with the attributes of [v], and whatever
    it holds under [region], [item] and [connection]. *)
Definition of_vpc (v : vpc_object) (region item connection : option attr)
  : gmap string attr :=
  let d : gmap string attr :=
    list_to_map
      [("id", AStr (vpc_id v)); ("cidr_block", AStr (vpc_cidr_block v));
       ("state", AStr (vpc_state v)); ("tags", ATags (vpc_tags v));
       ("dhcp_options_id", AStr (vpc_dhcp_options_id v));
       ("instance_tenancy", AStr (tenancy_str (vpc_instance_tenancy v)));
       ("is_default", ABool (vpc_is_default v));
       ("classic_link_enabled", flag (vpc_classic_link_enabled v))] in
  let put k (o : option attr) (d : gmap string attr) :=
    match o with Some a => <[k := a]> d | None => d end in
  put "region" region (put "item" item (put "connection" connection d)).

(** Reading the eight returned attributes back. *)
Definition to_vpc (d : gmap string attr) : option vpc_object :=
  match d !! "id", d !! "cidr_block", d !! "state", d !! "tags",
        d !! "dhcp_options_id", d !! "instance_tenancy", d !! "is_default",
        d !! "classic_link_enabled" with
  | Some (AStr i), Some (AStr c), Some (AStr s), Some (ATags t),
    Some (AStr o), Some (AStr tn), Some (ABool df), Some cl =>
      match read_tenancy tn, read_flag cl with
      | Some tn, Some cl => Some (VPC i c s t o tn df cl)
      | _, _ => None
      end
  | _, _, _, _, _, _, _, _ => None
  end.

End ObjectDict.

(** ** The whole of [main] *)

(** What [connect_to_aws] may raise. *)
Inductive connect_error :=
  | NoAuthHandlerFound (text : string)
  | AnsibleAWSError (text : string)
  | OtherConnectError (e : exn).

(** Lines 238-332: [main] from the test for boto on. [region] is what
    [get_aws_connection_info] returned for it, [connect_to_aws] is [None]
    when the connection [conn] was obtained and the exception raised
    otherwise. *)
Definition module_main {W} `{conn : !VPCConnection W} (boto_exception : exn → string)
    (HAS_BOTO : bool) (region : option string) (connect_to_aws : option connect_error)
    (p : params) (check_mode : bool) : M W unit :=
  (if negb HAS_BOTO then fail_json "boto is required for this module" else mret ());;
  (if bool_decide (region ≠ None ∧ region ≠ Some "") then
     match connect_to_aws with
     | None => mret ()
     | Some (NoAuthHandlerFound t) => fail_json t
     | Some (AnsibleAWSError t) => fail_json t
     | Some (OtherConnectError e) => raise e
     end
   else fail_json "region must be specified");;
  main boto_exception p check_mode.

(** ** The effect of a run on the reference provider *)

(** The provider with the entry of [id] set to [e], and with [id] removed. *)
Definition put (id : string) (e : Cloud.entry) (c : Cloud.t) : Cloud.t :=
  Cloud.with_vpcs c (<[id := e]> (Cloud.vpcs c)).

Definition remove (id : string) (c : Cloud.t) : Cloud.t :=
  Cloud.with_vpcs c (delete id (Cloud.vpcs c)).

(** An entry after the DHCP, tag and DNS steps of a real run. *)
Definition reconciled (p : params) (e : Cloud.entry) : Cloud.entry :=
  Cloud.set_attribute (enable_dns_hostnames (dns_hostnames p))
    (Cloud.set_attribute (enable_dns_support (dns_support p))
       (Cloud.add_tags (effective_tags (tags p) (name p))
          (match dhcp_opts_id p with
           | Some d => Cloud.set_dhcp d e
           | None => e
           end))).

(** The entries that answer the lookup of [p]. *)
Definition answers (p : params) (c : Cloud.t) : list (string * Cloud.entry) :=
  map_to_list (filter (Cloud.matches (name p) (cidr_block p)) (Cloud.vpcs c)).


(** The entry the [present] branch of a real run works on, and whether it is
    newly created: a new one when duplicates are allowed or nothing answers,
    the answer when there is one, none when there are several. *)
Definition bound_entry (p : params) (c : Cloud.t) : option (bool * (string * Cloud.entry)) :=
  let created :=
    (true, (fresh (dom (Cloud.vpcs c)), Cloud.new_entry c (cidr_block p) (tenancy p))) in
  if multi_ok p then Some created
  else match answers p c with
       | [] => Some created
       | [kv] => Some (false, kv)
       | _ => None
       end.

(** What the DHCP and tag comparisons say about an entry. *)
Definition would_change (p : params) (created : bool) (e : Cloud.entry) : bool :=
  bool_decide (effective_tags (tags p) (name p) ≠ Cloud.e_tags e)
  || (match dhcp_opts_id p with
      | Some d => bool_decide (Cloud.e_dhcp_options_id e ≠ d)
      | None => false
      end
      || created).

(** ** A connection that has lost its write path *)

(** Reads go through to the provider behind it; every write is cut off by
    an exception that is not a [BotoServerError]. *)
Module CutOff.

Record t (W : Type) := Behind { behind : W }.
Arguments Behind {W} _.
Arguments behind {W} _.

Definition read {W A} (op : W → (exn + A) * W) (s : t W) : (exn + A) * t W :=
  let '(r, w) := op (behind s) in (r, Behind w).

Definition cut {W A} (s : t W) : (exn + A) * t W :=
  (inl (OtherException "Connection reset by peer"), s).

Global Instance connection {W} `{!VPCConnection W} : VPCConnection (t W) := {|
  get_all_vpcs q := read (get_all_vpcs q);
  create_vpc cidr tn := cut;
  delete_vpc id := cut;
  get_all_tags id := read (get_all_tags id);
  create_tags id tgs := cut;
  associate_dhcp_options d id := cut;
  modify_vpc_attribute id a := cut
|}.

End CutOff.

(** ** More concrete parameters and provider states *)

(** The scenario with one more tag, and the provider after a run of it. *)
Definition env_tags : params :=
  {| name := "app-vpc"; cidr_block := "10.0.0.0/16"; tenancy := tenancy_default;
     dns_support := true; dns_hostnames := true; dhcp_opts_id := None;
     tags := Some {["env" := "staging"]}; state := present; multi_ok := false |}.

Definition tagged_vpc : Cloud.t := after_runs 1 env_tags Cloud.empty.

(** The scenario with a DHCP options id the provider does not know. *)
Definition missing_dhcp : params :=
  {| name := "app-vpc"; cidr_block := "10.0.0.0/16"; tenancy := tenancy_default;
     dns_support := true; dns_hostnames := true;
     dhcp_opts_id := Some "dopt-missing";
     tags := None; state := present; multi_ok := false |}.

(** The provider right after the scenario's VPC has been created. *)
Definition just_created : Cloud.t :=
  (create_vpc "10.0.0.0/16" tenancy_default Cloud.empty).2.

(** The tags the provider lists for the first match. *)
Definition listed_tags (c : Cloud.t) : list (string * string) :=
  match get_all_tags (vpc_id (first_match c)) c with
  | (inr pairs, _) => pairs
  | _ => []
  end.

(** * Lemmas and theorems *)

Section Emits.
Context {W : Type} `{conn : !VPCConnection W}.
Variable P : call → Prop.

Lemma emits_ret {A} (a : A) : emits P (mret a : M W A).
Proof. intros w l. exists []. by rewrite app_nil_r. Qed.

Lemma emits_exit_json {A} r : emits P (exit_json r : M W A).
Proof. intros w l. exists []. by rewrite app_nil_r. Qed.

Lemma emits_fail_json {A} msg : emits P (fail_json msg : M W A).
Proof. intros w l. exists []. by rewrite app_nil_r. Qed.

Lemma emits_raise {A} e : emits P (raise e : M W A).
Proof. intros w l. exists []. by rewrite app_nil_r. Qed.

Lemma emits_invoke {A} c (op : W → (exn + A) * W) : P c → emits P (invoke c op).
Proof.
  intros Hc w l. exists [c]. unfold invoke.
  destruct (op w) as [[e|a] w']; simpl; auto.
Qed.

Lemma emits_bind {A B} (m : M W A) (f : A → M W B) :
  emits P m → (∀ a, emits P (f a)) → emits P (m ≫= f).
Proof.
  intros Hm Hf w l. destruct (Hm w l) as (l1 & E1 & F1).
  unfold mbind, M_bind. destruct (m w l) as [[o w'] l'] eqn:E.
  unfold calls_of in E1; simpl in E1; subst l'.
  destruct o; try (exists l1; by split).
  destruct (Hf a w' (l ++ l1)) as (l2 & E2 & F2).
  exists (l1 ++ l2). rewrite E2, app_assoc. split; [done|]. by apply Forall_app.
Qed.

Lemma emits_try_except_Exception {A} (m : M W A) h :
  emits P m → (∀ e, emits P (h e)) → emits P (try_except_Exception m h).
Proof.
  intros Hm Hh w l. destruct (Hm w l) as (l1 & E1 & F1).
  unfold try_except_Exception. destruct (m w l) as [[o w'] l'] eqn:E.
  unfold calls_of in E1; simpl in E1; subst l'.
  destruct o; try (exists l1; by split).
  destruct (Hh e w' (l ++ l1)) as (l2 & E2 & F2).
  exists (l1 ++ l2). rewrite E2, app_assoc. split; [done|]. by apply Forall_app.
Qed.

Lemma emits_try_except_BotoServerError {A} (m : M W A) h :
  emits P m → (∀ e, emits P (h e)) → emits P (try_except_BotoServerError m h).
Proof.
  intros Hm Hh w l. destruct (Hm w l) as (l1 & E1 & F1).
  unfold try_except_BotoServerError. destruct (m w l) as [[o w'] l'] eqn:E.
  unfold calls_of in E1; simpl in E1; subst l'.
  destruct o as [a|r|msg|[t| | |t]]; try (exists l1; by split).
  destruct (Hh (BotoServerError t) w' (l ++ l1)) as (l2 & E2 & F2).
  exists (l1 ++ l2). rewrite E2, app_assoc. split; [done|]. by apply Forall_app.
Qed.

Lemma emits_run {A} (m : M W A) w : emits P m → Forall P (calls_of (run m w)).
Proof. intros Hm. destruct (Hm w []) as (l' & E & F). unfold run. by rewrite E. Qed.

End Emits.

(** Walks through a computation, one construct at a time. *)
Ltac emits_step :=
  match goal with
  | |- emits _ (mret _) => apply emits_ret
  | |- emits _ (exit_json _) => apply emits_exit_json
  | |- emits _ (fail_json _) => apply emits_fail_json
  | |- emits _ (raise _) => apply emits_raise
  | |- emits _ (fail_json_exception _) => apply emits_raise
  | |- emits _ (invoke _ _) => apply emits_invoke
  | |- emits _ (_ ≫= _) => apply emits_bind
  | |- emits _ (try_except_Exception _ _) => apply emits_try_except_Exception
  | |- emits _ (try_except_BotoServerError _ _) => apply emits_try_except_BotoServerError
  | |- emits _ (if ?b then _ else _) => destruct b
  | |- emits _ (match ?x with _ => _ end) => destruct x
  | |- emits _ (let '(_, _) := ?x in _) => destruct x
  | |- ∀ _, _ => intro
  end.

Section Properties.
Context {W : Type} `{conn : !VPCConnection W}.
Variable boto_exception : exn → string.

(** The lookup, case by case on what the provider answers. *)
Lemma vpc_exists_eq n c multi (w : W) l :
  vpc_exists boto_exception n c multi w l =
  match get_all_vpcs (ByFilters n c) w with
  | (inl e, w') => (FailJson (boto_exception e), w', l ++ [GetAllVpcs (ByFilters n c)])
  | (inr vs, w') =>
      if multi then (Val None, w', l ++ [GetAllVpcs (ByFilters n c)])
      else match vs with
           | [] => (Val None, w', l ++ [GetAllVpcs (ByFilters n c)])
           | [v] => (Val (Some v), w', l ++ [GetAllVpcs (ByFilters n c)])
           | _ => (FailJson (AmbiguousResourceError (length vs)), w',
                   l ++ [GetAllVpcs (ByFilters n c)])
           end
  end.
Proof.
  unfold vpc_exists, mbind, M_bind, try_except_Exception, invoke.
  destruct (get_all_vpcs (ByFilters n c) w) as [[e|vs] w']; [done|].
  destruct multi; [done|].
  destruct vs as [|v [|v' vs]]; simpl; repeat case_bool_decide; simpl in *;
    try lia; done.
Qed.

Lemma emits_main_check_mode p :
  emits (λ c, is_find c = true ∨ is_getTags c = true) (main boto_exception p true).
Proof.
  unfold main, main_present, main_absent, present_diff, present_lookup,
    present_dhcp, present_tags, present_finish, present_dns, present_refetch,
    vpc_exists, update_vpc_tags, update_dhcp_opts.
  simpl negb. cbv iota.
  repeat emits_step; simpl; auto.
Qed.

(** C2. In check mode (dry run), whatever the desired state, the branch and
    the provider's answers, every call the module makes is the filtered
    lookup or the tag listing: no create, delete, tag write, DHCP association
    or attribute write reaches the provider. *)
Theorem C2_check_mode_never_mutates (p : params) (w : W) :
  Forall (λ c, (is_find c = true ∨ is_getTags c = true) ∧ is_mutating c = false)
         (calls_of (run (main boto_exception p true) w)).
Proof.
  eapply Forall_impl; [apply emits_run, emits_main_check_mode|].
  intros [[]| | | | | |] [H|H]; simpl in *; try done; auto.
Qed.

(** C3. With [dns_hostnames] set and [dns_support] unset the module fails
    with the validation message, in either branch and in either mode, the
    provider state is untouched and the call log is empty. *)
Theorem C3_validation_before_any_call (p : params) (check_mode : bool) (w : W) :
  dns_hostnames p = true → dns_support p = false →
  run (main boto_exception p check_mode) w = (FailJson ValidationError, w, []).
Proof.
  intros Hh Hs. unfold run, main, mbind, M_bind. by rewrite Hh, Hs.
Qed.

(** Once validation has passed, [main] is the branch chosen by [state]. *)
Lemma main_valid p check_mode (w : W) l :
  valid p →
  main boto_exception p check_mode w l =
  match state p with
  | present => main_present boto_exception p check_mode w l
  | absent => main_absent boto_exception p check_mode w l
  end.
Proof.
  intros Hv. unfold main, mbind, M_bind, mret, M_ret, valid in *.
  destruct (dns_hostnames p); simpl; [|by destruct (state p)].
  rewrite (Hv eq_refl). simpl. by destruct (state p).
Qed.

(** C4. Without [multi_ok], when the lookup call returns [vs]: more than
    one match makes both branches fail, in either mode, with the ambiguity
    message that counts the matches, the lookup being the only call made;
    exactly one match is the bound object (the [present] branch carries on
    with it and no change so far, the [absent] branch deletes it); no match
    is "not found". *)
Theorem C4_lookup_policy (p : params) (w w' : W) (vs : list vpc_object) :
  multi_ok p = false → valid p →
  get_all_vpcs (ByFilters (name p) (cidr_block p)) w = (inr vs, w') →
  let lookup := GetAllVpcs (ByFilters (name p) (cidr_block p)) in
  (1 < length vs → ∀ check_mode,
     run (main boto_exception p check_mode) w
     = (FailJson (AmbiguousResourceError (length vs)), w', [lookup])
     ∧ is_mutating lookup = false) ∧
  (∀ v, vs = [v] →
     run (vpc_exists boto_exception (name p) (cidr_block p) (multi_ok p)) w
     = (Val (Some v), w', [lookup])
     ∧ (∀ check_mode,
          run (present_lookup boto_exception p check_mode) w
          = (Val (false, v), w', [lookup]))
     ∧ calls_of (run (main_absent boto_exception p false) w)
       = [lookup; DeleteVpc (vpc_id v)]) ∧
  (vs = [] →
     run (vpc_exists boto_exception (name p) (cidr_block p) (multi_ok p)) w
     = (Val None, w', [lookup])).
Proof.
  intros Hm Hv Hf lookup. split; [|split].
  - intros Hlen check_mode. split; [|done].
    unfold run. rewrite main_valid by done.
    unfold main_present, present_diff, present_lookup, main_absent, mbind, M_bind.
    rewrite !vpc_exists_eq, Hf, Hm.
    destruct vs as [|v [|v' vs]]; simpl in Hlen; try lia.
    by destruct (state p).
  - intros v ->. split; [|split].
    + unfold run. by rewrite vpc_exists_eq, Hf, Hm.
    + intros check_mode. unfold run, present_lookup, mbind, M_bind.
      by rewrite vpc_exists_eq, Hf, Hm.
    + unfold run, main_absent, mbind, M_bind, try_except_BotoServerError.
      rewrite vpc_exists_eq, Hf, Hm. simpl. unfold invoke.
      destruct (delete_vpc (vpc_id v) w') as [[[]|[]] w'']; done.
  - intros ->. unfold run. by rewrite vpc_exists_eq, Hf, Hm.
Qed.

(** C8. In check mode, when the lookup of the [present] branch binds
    nothing, the module exits at once with [changed=true] and no resource;
    the lookup is the only call in the log. *)
Theorem C8_check_mode_not_found_exits (p : params) (w w' : W) (l : list call) :
  state p = present → valid p →
  run (vpc_exists boto_exception (name p) (cidr_block p) (multi_ok p)) w
  = (Val None, w', l) →
  run (main boto_exception p true) w
  = (ExitJson {| changed := true; vpc := None |}, w', l)
  ∧ l = [GetAllVpcs (ByFilters (name p) (cidr_block p))]
  ∧ resource {| changed := true; vpc := None |} = None.
Proof.
  intros Hs Hv Hl. unfold run in *. rewrite main_valid, Hs by done.
  unfold main_present, present_diff, present_lookup, mbind, M_bind.
  rewrite Hl. simpl. split; [done|]. split; [|done].
  rewrite vpc_exists_eq in Hl.
  destruct (get_all_vpcs _ w) as [[e|vs] w1]; [done|].
  destruct (multi_ok p); [by inversion Hl|].
  destruct vs as [|v [|v' vs]]; by inversion Hl.
Qed.

(** C10. With [multi_ok] set, the [absent] branch never calls delete,
    whatever the provider does; and whenever the lookup call returns, however
    many matches it lists, the module exits with [changed=false] and no
    resource, in either mode, the lookup being the only call made. *)
Theorem C10_absent_with_multi_ok_is_noop (p : params) (check_mode : bool) (w : W) :
  multi_ok p = true → state p = absent → valid p →
  (∀ id, DeleteVpc id ∉ calls_of (run (main boto_exception p check_mode) w)) ∧
  (∀ vs w', get_all_vpcs (ByFilters (name p) (cidr_block p)) w = (inr vs, w') →
     run (main boto_exception p check_mode) w
     = (ExitJson {| changed := false; vpc := Some None |}, w',
        [GetAllVpcs (ByFilters (name p) (cidr_block p))])
     ∧ resource {| changed := false; vpc := Some None |} = None).
Proof.
  intros Hm Hs Hv. unfold run. rewrite main_valid, Hs by done.
  unfold main_absent, mbind, M_bind. rewrite vpc_exists_eq, Hm.
  destruct (get_all_vpcs _ w) as [[e|vs] w1]; simpl.
  - split; [|done]. intros id Hin. apply list_elem_of_singleton in Hin. done.
  - split.
    + intros id Hin. apply list_elem_of_singleton in Hin. done.
    + intros vs' w2 [= <- <-]. done.
Qed.

(** Name precedence, and nothing but the [Name] key is touched. *)
Lemma effective_tags_lookup tgs n k :
  effective_tags tgs n !! k = if decide (k = "Name") then Some n else default ∅ tgs !! k.
Proof.
  unfold effective_tags. rewrite lookup_insert.
  destruct (decide ("Name" = k)), (decide (k = "Name")); congruence.
Qed.

(** The lookup-and-create step, case by case on the provider's answers. *)
Lemma present_lookup_eq (p : params) (check_mode : bool) (w : W) (l : list call) :
  let lookup := GetAllVpcs (ByFilters (name p) (cidr_block p)) in
  let creation := CreateVpc (cidr_block p) (tenancy p) in
  let not_found (w' : W) : outcome (bool * vpc_object) * W * list call :=
    if check_mode then (ExitJson {| changed := true; vpc := None |}, w', l ++ [lookup])
    else match create_vpc (cidr_block p) (tenancy p) w' with
         | (inr v, w'') => (Val (true, v), w'', l ++ [lookup; creation])
         | (inl (BotoServerError t), w'') =>
             (Uncaught TypeError, w'', l ++ [lookup; creation])
         | (inl e, w'') => (Uncaught e, w'', l ++ [lookup; creation])
         end in
  present_lookup boto_exception p check_mode w l =
  match get_all_vpcs (ByFilters (name p) (cidr_block p)) w with
  | (inl e, w') => (FailJson (boto_exception e), w', l ++ [lookup])
  | (inr vs, w') =>
      if multi_ok p then not_found w'
      else match vs with
           | [] => not_found w'
           | [v] => (Val (false, v), w', l ++ [lookup])
           | _ => (FailJson (AmbiguousResourceError (length vs)), w', l ++ [lookup])
           end
  end.
Proof.
  intros lookup creation not_found.
  unfold present_lookup, mbind, M_bind. rewrite vpc_exists_eq. fold lookup creation.
  destruct (get_all_vpcs _ w) as [[e|vs] w']; [done|].
  destruct (multi_ok p), vs as [|v [|v' vs]]; try done;
    unfold not_found, try_except_BotoServerError, mbind, M_bind, invoke;
    destruct check_mode; simpl; try done;
    destruct (create_vpc _ _ w') as [[[]|v0] w'']; simpl; by rewrite <- ?app_assoc.
Qed.

(** The DHCP step, case by case. *)
Lemma present_dhcp_eq p check_mode changed v (w : W) l :
  present_dhcp p check_mode changed v w l =
  match dhcp_opts_id p with
  | None => (Val changed, w, l)
  | Some d =>
      if bool_decide (vpc_dhcp_options_id v ≠ d) then
        if check_mode then (Val true, w, l)
        else match associate_dhcp_options d (vpc_id v) w with
             | (inr _, w') => (Val true, w', l ++ [AssociateDhcpOptions d (vpc_id v)])
             | (inl (BotoServerError t), w') =>
                 (Uncaught TypeError, w', l ++ [AssociateDhcpOptions d (vpc_id v)])
             | (inl e, w') => (Uncaught e, w', l ++ [AssociateDhcpOptions d (vpc_id v)])
             end
      else (Val changed, w, l)
  end.
Proof.
  unfold present_dhcp, update_dhcp_opts, try_except_BotoServerError, mbind, M_bind,
    invoke.
  destruct (dhcp_opts_id p) as [d|]; [|done].
  case_bool_decide; [|done]. destruct check_mode; simpl; [done|].
  by destruct (associate_dhcp_options d (vpc_id v) w) as [[[]|[]] w'].
Qed.

(** The tag step, case by case: its guard always passes. *)
Lemma present_tags_eq p check_mode changed v (w : W) l :
  let eff := effective_tags (tags p) (name p) in
  let listing := GetAllTags (vpc_id v) in
  let write := CreateTags (vpc_id v) eff in
  present_tags boto_exception p check_mode changed v w l =
  match get_all_tags (vpc_id v) w with
  | (inl e, w1) => (FailJson (boto_exception e), w1, l ++ [listing])
  | (inr pairs, w1) =>
      if bool_decide (eff ≠ dict pairs) then
        if check_mode then (Val true, w1, l ++ [listing])
        else match create_tags (vpc_id v) eff w1 with
             | (inr _, w2) => (Val true, w2, l ++ [listing; write])
             | (inl e, w2) => (FailJson (boto_exception e), w2, l ++ [listing; write])
             end
      else (Val changed, w1, l ++ [listing])
  end.
Proof.
  intros eff listing write. unfold present_tags. rewrite orb_true_r.
  unfold update_vpc_tags, try_except_BotoServerError, try_except_Exception, mbind,
    M_bind, invoke. simpl. fold eff listing write.
  destruct (get_all_tags (vpc_id v) w) as [[e|pairs] w1]; [done|].
  case_bool_decide; [|done]. destruct check_mode; simpl; [done|].
  destruct (create_tags (vpc_id v) eff w1) as [[e|[]] w2]; simpl;
    by rewrite <- app_assoc.
Qed.

(** [dict] on a listing: a key is bound to the value of its last pair. *)
Lemma dict_snoc l kv : dict (l ++ [kv]) = <[kv.1 := kv.2]> (dict l).
Proof. unfold dict. by rewrite foldl_snoc. Qed.

Lemma dict_reverse l : dict l = list_to_map (reverse l).
Proof.
  induction l as [|kv l IH] using rev_ind; [done|].
  rewrite dict_snoc, reverse_snoc, IH. by destruct kv.
Qed.

Lemma dict_lookup_last l k x :
  dict l !! k = Some x ↔ ∃ l1 l2, l = l1 ++ (k, x) :: l2 ∧ k ∉ l2.*1.
Proof.
  induction l as [|[k' x'] l IH] using rev_ind.
  - split; [done|]. intros (l1 & l2 & H & _). by destruct l1.
  - rewrite dict_snoc. simpl. destruct (decide (k' = k)) as [->|Hne].
    + rewrite lookup_insert_eq. split.
      * intros [= ->]. exists l, []. split; [done|]. apply not_elem_of_nil.
      * intros (l1 & l2 & H & Hn). destruct l2 as [|kv l2 _] using rev_ind.
        -- by apply app_inj_tail in H as [_ [= ->]].
        -- exfalso. rewrite app_comm_cons, app_assoc in H.
           apply app_inj_tail in H as [_ <-]. apply Hn.
           rewrite fmap_app, elem_of_app. right. simpl. left.
    + rewrite lookup_insert_ne by done. rewrite IH. split.
      * intros (l1 & l2 & -> & Hn). exists l1, (l2 ++ [(k', x')]).
        split; [by rewrite <- app_assoc|].
        rewrite fmap_app, elem_of_app. intros [Hin|Hin]; [done|].
        simpl in Hin. apply list_elem_of_singleton in Hin. congruence.
      * intros (l1 & l2 & H & Hn). destruct l2 as [|kv l2 _] using rev_ind.
        -- by apply app_inj_tail in H as [_ [= -> ->]].
        -- rewrite app_comm_cons, app_assoc in H. apply app_inj_tail in H as [-> <-].
           exists l1, l2. split; [done|]. intros Hin. apply Hn.
           rewrite fmap_app, elem_of_app. by left.
Qed.

Lemma dict_lookup_NoDup l k x :
  NoDup l.*1 → dict l !! k = Some x ↔ (k, x) ∈ l.
Proof.
  intros Hnd. rewrite dict_reverse. rewrite <- elem_of_list_to_map.
  - by rewrite elem_of_reverse.
  - by rewrite fmap_reverse, reverse_Permutation.
Qed.

(** C5. The tags of the tag step are the requested tags (none when the
    parameter is absent) with [Name] bound to the [name] parameter, whatever
    the requested tags said about [Name]. When the provider lists [pairs] as
    current tags, the current mapping binds each listed key to the value of
    its last pair in the listing, and nothing else; the step differs exactly
    when the two mappings do not hold the same key-value pairs (for a listing
    without repeated keys: exactly when the tags of the step are not the
    listed pairs); then, and only then, the flag is raised, and the tags are
    written exactly when it differs and the run is real. *)
Theorem C5_tag_step (p : params) (check_mode changed : bool) (v : vpc_object)
    (w w1 : W) (l : list call) (pairs : list (string * string)) :
  get_all_tags (vpc_id v) w = (inr pairs, w1) →
  let eff := effective_tags (tags p) (name p) in
  let differs := bool_decide (eff ≠ dict pairs) in
  let listing := GetAllTags (vpc_id v) in
  let write := CreateTags (vpc_id v) eff in
  (eff !! "Name" = Some (name p)
   ∧ ∀ k, k ≠ "Name" → eff !! k = default ∅ (tags p) !! k) ∧
  (∀ k x, dict pairs !! k = Some x
          ↔ ∃ l1 l2, pairs = l1 ++ (k, x) :: l2 ∧ k ∉ l2.*1) ∧
  (differs = false ↔ ∀ k x, eff !! k = Some x ↔ dict pairs !! k = Some x) ∧
  (NoDup pairs.*1 →
   (differs = false ↔ ∀ k x, eff !! k = Some x ↔ (k, x) ∈ pairs)) ∧
  present_tags boto_exception p true changed v w l
  = (Val (differs || changed), w1, l ++ [listing]) ∧
  calls_of (present_tags boto_exception p check_mode changed v w l)
  = l ++ listing :: (if differs && negb check_mode then [write] else []) ∧
  (∀ c' w' l', present_tags boto_exception p check_mode changed v w l = (Val c', w', l') →
     c' = differs || changed) ∧
  (∀ w2, create_tags (vpc_id v) eff w1 = (inr (), w2) →
     present_tags boto_exception p false changed v w l
     = (Val (differs || changed), (if differs then w2 else w1),
        l ++ listing :: (if differs then [write] else []))).
Proof.
  intros Ht eff differs listing write.
  assert (differs = false
          ↔ ∀ k x, eff !! k = Some x ↔ dict pairs !! k = Some x) as Hsame.
  { subst differs. rewrite bool_decide_eq_false. split.
    - intros Heq%dec_stable. by rewrite Heq.
    - intros Heq Hne. apply Hne, map_eq. intros k. apply option_eq. apply Heq. }
  split; [|split; [|split; [|split; [|split; [|split; [|split]]]]]].
  - subst eff. rewrite !effective_tags_lookup. split; [done|].
    intros k Hk. rewrite effective_tags_lookup. by destruct (decide (k = "Name")).
  - apply dict_lookup_last.
  - exact Hsame.
  - intros Hnd. rewrite Hsame. split; intros Heq k x.
    + by rewrite Heq, dict_lookup_NoDup.
    + by rewrite Heq, dict_lookup_NoDup.
  - rewrite present_tags_eq, Ht. fold eff differs. by destruct differs.
  - rewrite present_tags_eq, Ht. fold eff differs listing write.
    destruct differs; simpl; [|done]. destruct check_mode; simpl; [done|].
    by destruct (create_tags (vpc_id v) eff w1) as [[e|[]] w2].
  - intros c' w' l'. rewrite present_tags_eq, Ht. fold eff differs.
    destruct differs; simpl; [|by intros [= <- _ _]].
    destruct check_mode; [by intros [= <- _ _]|].
    destruct (create_tags (vpc_id v) eff w1) as [[e|[]] w2]; [done|].
    by intros [= <- _ _].
  - intros w2 Hw. rewrite present_tags_eq, Ht. fold eff differs.
    destruct differs; [|done]. by rewrite Hw.
Qed.

(** C6. With [dhcp_opts_id] given, the DHCP step raises the flag exactly
    when the bound object's DHCP options id differs from it; the association
    call is made exactly when they differ and the run is real; and a real run
    that gets through the step leaves the same flag as the check-mode run
    from the same state. *)
Theorem C6_dhcp_step (p : params) (check_mode changed : bool) (v : vpc_object)
    (d : string) (w : W) (l : list call) :
  dhcp_opts_id p = Some d →
  let differs := bool_decide (vpc_dhcp_options_id v ≠ d) in
  let assoc := AssociateDhcpOptions d (vpc_id v) in
  present_dhcp p true changed v w l = (Val (differs || changed), w, l) ∧
  calls_of (present_dhcp p check_mode changed v w l)
  = (if differs && negb check_mode then l ++ [assoc] else l) ∧
  (∀ c' w' l', present_dhcp p check_mode changed v w l = (Val c', w', l') →
     c' = differs || changed) ∧
  (∀ c' w' l', present_dhcp p false changed v w l = (Val c', w', l') →
     outcome_of (present_dhcp p true changed v w l) = Val c') ∧
  (∀ w', associate_dhcp_options d (vpc_id v) w = (inr (), w') →
     present_dhcp p false changed v w l
     = (Val (differs || changed), (if differs then w' else w),
        if differs then l ++ [assoc] else l)).
Proof.
  intros Hd differs assoc.
  assert (Hflag : ∀ cm c' w' l', present_dhcp p cm changed v w l = (Val c', w', l') →
            c' = differs || changed).
  { intros cm c' w' l'. rewrite present_dhcp_eq, Hd. fold differs.
    destruct differs; [|by intros [= <- _ _]].
    destruct cm; simpl; [by intros [= <- _ _]|].
    destruct (associate_dhcp_options d (vpc_id v) w) as [[[]|[]] w'']; try done.
    by intros [= <- _ _]. }
  assert (Hdry : present_dhcp p true changed v w l = (Val (differs || changed), w, l)).
  { rewrite present_dhcp_eq, Hd. fold differs. by destruct differs. }
  split; [done|]. split; [|split; [|split]].
  - rewrite present_dhcp_eq, Hd. fold differs assoc. destruct differs; simpl; [|done].
    destruct check_mode; simpl; [done|].
    by destruct (associate_dhcp_options d (vpc_id v) w) as [[[]|[]] w'].
  - apply Hflag.
  - intros c' w' l' Hr. rewrite Hdry. unfold outcome_of. simpl.
    by rewrite (Hflag _ _ _ _ Hr).
  - intros w' Hw. rewrite present_dhcp_eq, Hd. fold differs assoc.
    destruct differs; [|done]. by rewrite Hw.
Qed.

(** The last stretch of the [present] branch, case by case on what the
    provider answers to the two attribute writes and to the re-fetch. *)
Lemma present_finish_real p changed v (w : W) l :
  let support := enable_dns_support (dns_support p) in
  let hostnames := enable_dns_hostnames (dns_hostnames p) in
  let l1 := l ++ [ModifyVpcAttribute (vpc_id v) support] in
  let l2 := l1 ++ [ModifyVpcAttribute (vpc_id v) hostnames] in
  let l3 := l2 ++ [GetAllVpcs (ByIds (vpc_id v))] in
  present_finish boto_exception p false changed v w l =
  match modify_vpc_attribute (vpc_id v) support w with
  | (inl (BotoServerError t), w1) => (FailJson (boto_exception (BotoServerError t)), w1, l1)
  | (inl e, w1) => (Uncaught e, w1, l1)
  | (inr _, w1) =>
      match modify_vpc_attribute (vpc_id v) hostnames w1 with
      | (inl (BotoServerError t), w2) =>
          (FailJson (boto_exception (BotoServerError t)), w2, l2)
      | (inl e, w2) => (Uncaught e, w2, l2)
      | (inr _, w2) =>
          match get_all_vpcs (ByIds (vpc_id v)) w2 with
          | (inl (BotoServerError t), w3) =>
              (FailJson (boto_exception (BotoServerError t)), w3, l3)
          | (inl e, w3) => (Uncaught e, w3, l3)
          | (inr [], w3) => (Uncaught IndexError, w3, l3)
          | (inr (v' :: _), w3) =>
              (ExitJson {| changed := changed; vpc := Some (Some v') |}, w3, l3)
          end
      end
  end.
Proof.
  intros support hostnames l1 l2 l3.
  unfold present_finish, present_dns, present_refetch, try_except_BotoServerError,
    mbind, M_bind, invoke, get_vpc_values. simpl.
  fold support hostnames l1.
  destruct (modify_vpc_attribute (vpc_id v) support w) as [[[]|[]] w1]; try done.
  fold l2.
  destruct (modify_vpc_attribute (vpc_id v) hostnames w1) as [[[]|[]] w2]; try done.
  fold l3.
  destruct (get_all_vpcs (ByIds (vpc_id v)) w2) as [[[]|[|v' vs]] w3]; done.
Qed.


(** C9, as amended. Once the DNS step is over, a check-mode run exits with
    the object it holds, and nothing can fail any more; a real run still has
    the re-fetch by id ahead of it, and exits normally exactly when that call
    returns a non-empty list: a [BotoServerError] from it ends the run in
    [fail_json], any other exception or an empty list ends it with an
    uncaught exception. *)
Theorem C9_only_the_refetch_can_fail (p : params) (check_mode changed : bool)
    (v : vpc_object) (w w1 : W) (l l1 : list call) :
  present_dns boto_exception p check_mode v w l = (Val (), w1, l1) →
  let refetch := GetAllVpcs (ByIds (vpc_id v)) in
  present_finish boto_exception p check_mode changed v w l =
  if check_mode then
    (ExitJson {| changed := changed; vpc := Some (Some v) |}, w1, l1)
  else
    match get_all_vpcs (ByIds (vpc_id v)) w1 with
    | (inr (v' :: _), w2) =>
        (ExitJson {| changed := changed; vpc := Some (Some v') |}, w2, l1 ++ [refetch])
    | (inr [], w2) => (Uncaught IndexError, w2, l1 ++ [refetch])
    | (inl (BotoServerError t), w2) =>
        (FailJson (boto_exception (BotoServerError t)), w2, l1 ++ [refetch])
    | (inl e, w2) => (Uncaught e, w2, l1 ++ [refetch])
    end.
Proof.
  intros Hdns refetch.
  unfold present_finish, mbind, M_bind. rewrite Hdns.
  unfold present_refetch, try_except_BotoServerError, mbind, M_bind, invoke,
    get_vpc_values.
  destruct check_mode; simpl; [done|]. fold refetch.
  destruct (get_all_vpcs (ByIds (vpc_id v)) w1) as [[[]|[|v' vs]] w2]; done.
Qed.

End Properties.

(** ** The reference provider, step by step *)

(** [dict] rebuilds a mapping from its own listing. *)
Lemma dict_map_to_list (m : gmap string string) : dict (map_to_list m) = m.
Proof.
  rewrite dict_reverse. rewrite <- (list_to_map_to_list m) at 2.
  apply list_to_map_proper.
  - rewrite fmap_reverse, reverse_Permutation. apply NoDup_fst_map_to_list.
  - apply reverse_Permutation.
Qed.

Section CloudSteps.
Import Cloud.
Variables (n cidr : string).








End CloudSteps.

(** ** Two runs in a row on the reference provider *)


Section Idempotence.
Import Cloud.
Variable boto_exception : exn → string.
Variable p : params.







End Idempotence.




(** * Concrete runs *)

(** The scenario: nothing matches, so the VPC is created, tagged with its
    name, its DNS attributes are written, and the run reports a change. *)
Example scenario_creates_and_tags :
  let r := run (main str app_vpc false) Cloud.empty in
  changed (exit_of r) = true
  ∧ (vpc_cidr_block <$> resource (exit_of r)) = Some "10.0.0.0/16"
  ∧ (vpc_tags <$> resource (exit_of r)) = Some {["Name" := "app-vpc"]}
  ∧ calls_of r
    = [GetAllVpcs (ByFilters "app-vpc" "10.0.0.0/16");
       CreateVpc "10.0.0.0/16" tenancy_default;
       GetAllTags "0";
       CreateTags "0" {["Name" := "app-vpc"]};
       ModifyVpcAttribute "0" (enable_dns_support true);
       ModifyVpcAttribute "0" (enable_dns_hostnames true);
       GetAllVpcs (ByIds "0")].
Proof. vm_compute. done. Qed.

Example name_precedence : effective_tags (Some {["Name" := "X"]}) "Y" = {["Name" := "Y"]}.
Proof. unfold effective_tags. simpl. apply insert_singleton_eq. Qed.

Example duplicates_create_a_third :
  length (matches_in two_vpcs) = 2
  ∧ length (matches_in (after_runs 1 (with_multi_ok true app_vpc) two_vpcs)) = 3.
Proof. vm_compute. done. Qed.

(** The first run of the scenario exits normally and leaves [one_vpc]. *)
Lemma scenario_first_run :
  run (main str app_vpc false) Cloud.empty
  = (ExitJson (exit_of (run (main str app_vpc false) Cloud.empty)), one_vpc,
     calls_of (run (main str app_vpc false) Cloud.empty)).
Proof. vm_compute. reflexivity. Defined.



Lemma C3_witness :
  run (main str hostnames_without_support true) Cloud.empty
  = (FailJson ValidationError, Cloud.empty, []).
Proof.
  exact (C3_validation_before_any_call str hostnames_without_support true Cloud.empty
           eq_refl eq_refl).
Defined.

Lemma two_vpcs_lookup :
  get_all_vpcs (ByFilters (name app_vpc) (cidr_block app_vpc)) two_vpcs
  = (inr (matches_in two_vpcs), two_vpcs).
Proof. vm_compute. reflexivity. Defined.

Lemma two_vpcs_ambiguous : 1 < length (matches_in two_vpcs).
Proof. vm_compute. lia. Defined.

Lemma C4_witness :
  run (main str app_vpc false) two_vpcs
  = (FailJson (AmbiguousResourceError (length (matches_in two_vpcs))), two_vpcs,
     [GetAllVpcs (ByFilters "app-vpc" "10.0.0.0/16")]).
Proof.
  pose proof (C4_lookup_policy str app_vpc two_vpcs two_vpcs (matches_in two_vpcs)
                eq_refl (λ _, eq_refl) two_vpcs_lookup) as [H _].
  apply H. apply two_vpcs_ambiguous.
Defined.

Lemma tagged_vpc_tags :
  get_all_tags (vpc_id (first_match tagged_vpc)) tagged_vpc
  = (inr [("env", "staging"); ("Name", "app-vpc")], tagged_vpc).
Proof. vm_compute. reflexivity. Defined.

Lemma tagged_vpc_write :
  create_tags (vpc_id (first_match tagged_vpc))
    (effective_tags (tags renamed) (name renamed)) tagged_vpc
  = (inr (), Cloud.with_vpcs tagged_vpc
               (Cloud.add_tags {["Name" := "Y"]} <$> Cloud.vpcs tagged_vpc)).
Proof. vm_compute. reflexivity. Defined.

Lemma renamed_differs :
  bool_decide (effective_tags (tags renamed) (name renamed)
               ≠ dict [("env", "staging"); ("Name", "app-vpc")]) = true.
Proof. vm_compute. reflexivity. Defined.

Lemma C5_witness :
  effective_tags (tags renamed) (name renamed) !! "Name" = Some "Y"
  ∧ (dict [("env", "staging"); ("Name", "app-vpc")] !! "env" = Some "staging"
     ↔ ∃ l1 l2, [("env", "staging"); ("Name", "app-vpc")]
                = l1 ++ ("env", "staging") :: l2 ∧ "env" ∉ l2.*1)
  ∧ present_tags str renamed true false (first_match tagged_vpc) tagged_vpc []
    = (Val true, tagged_vpc, [GetAllTags (vpc_id (first_match tagged_vpc))])
  ∧ present_tags str renamed false false (first_match tagged_vpc) tagged_vpc []
    = (Val true,
       Cloud.with_vpcs tagged_vpc
         (Cloud.add_tags {["Name" := "Y"]} <$> Cloud.vpcs tagged_vpc),
       [GetAllTags (vpc_id (first_match tagged_vpc));
        CreateTags (vpc_id (first_match tagged_vpc))
          (effective_tags (tags renamed) (name renamed))]).
Proof.
  pose proof (C5_tag_step str renamed false false (first_match tagged_vpc)
                tagged_vpc tagged_vpc [] _ tagged_vpc_tags)
    as ([H1 _] & H2 & _ & _ & H5 & _ & _ & H8).
  specialize (H8 _ tagged_vpc_write). rewrite renamed_differs in H5, H8.
  split; [exact H1|]. split; [exact (H2 "env" "staging")|].
  split; [exact H5|exact H8].
Defined.

Lemma C6_witness :
  present_dhcp renamed true false sample_vpc Cloud.empty []
  = (Val true, Cloud.empty, []).
Proof.
  pose proof (C6_dhcp_step renamed true false sample_vpc "dopt-67236184" Cloud.empty
                [] eq_refl) as [H _].
  exact H.
Defined.

Lemma C8_witness :
  run (main str app_vpc true) Cloud.empty
  = (ExitJson {| changed := true; vpc := None |}, Cloud.empty,
     [GetAllVpcs (ByFilters "app-vpc" "10.0.0.0/16")]).
Proof.
  pose proof (C8_check_mode_not_found_exits str app_vpc Cloud.empty Cloud.empty
                [GetAllVpcs (ByFilters "app-vpc" "10.0.0.0/16")]
                eq_refl (λ _, eq_refl) eq_refl) as [H _].
  exact H.
Defined.



Lemma one_vpc_dns_written :
  present_dns str app_vpc false (first_match one_vpc) one_vpc []
  = (Val (), one_vpc,
     [ModifyVpcAttribute "0" (enable_dns_support true);
      ModifyVpcAttribute "0" (enable_dns_hostnames true)]).
Proof. vm_compute. reflexivity. Defined.

Lemma C9_witness :
  present_finish str app_vpc false true (first_match one_vpc) one_vpc []
  = (ExitJson {| changed := true; vpc := Some (Some (first_match one_vpc)) |}, one_vpc,
     [ModifyVpcAttribute "0" (enable_dns_support true);
      ModifyVpcAttribute "0" (enable_dns_hostnames true);
      GetAllVpcs (ByIds "0")]).
Proof.
  pose proof (C9_only_the_refetch_can_fail str app_vpc false true (first_match one_vpc)
                one_vpc one_vpc [] _ one_vpc_dns_written) as H.
  rewrite H. vm_compute. reflexivity.
Defined.

Lemma flaky_dns_written :
  present_dns str app_vpc false (first_match one_vpc) (one_vpc, 2) []
  = (Val (), (one_vpc, 0),
     [ModifyVpcAttribute "0" (enable_dns_support true);
      ModifyVpcAttribute "0" (enable_dns_hostnames true)]).
Proof. vm_compute. reflexivity. Qed.

(** C9 as first stated fails: the re-fetch that follows the DNS step is a
    remote call like any other. Here the two attribute writes get through
    and the re-fetch times out, so the run ends in [fail_json]. *)
Lemma C9_refetch_can_fail : ¬ no_failure_after_dns (Cloud.t * nat) str.
Proof.
  intros H.
  destruct (H app_vpc false true _ _ _ _ _ flaky_dns_written) as (r & w' & l' & Hr).
  vm_compute in Hr. discriminate Hr.
Qed.

Lemma C10_witness :
  run (main str (with_state absent (with_multi_ok true app_vpc)) false) two_vpcs
  = (ExitJson {| changed := false; vpc := Some None |}, two_vpcs,
     [GetAllVpcs (ByFilters "app-vpc" "10.0.0.0/16")]).
Proof.
  pose proof (C10_absent_with_multi_ok_is_noop str
                (with_state absent (with_multi_ok true app_vpc)) false two_vpcs
                eq_refl eq_refl (λ _, eq_refl)) as [_ H].
  apply (H (matches_in two_vpcs) two_vpcs). vm_compute. reflexivity.
Defined.

(** * Further properties of the module *)

Section Routing.
Context {W : Type} `{conn : !VPCConnection W}.

Lemma contains_ret {A} (a : A) : contains_boto_errors (mret a : M W A).
Proof. by intros w l. Qed.

Lemma contains_exit_json {A} r : contains_boto_errors (exit_json r : M W A).
Proof. by intros w l. Qed.

Lemma contains_fail_json {A} msg : contains_boto_errors (fail_json msg : M W A).
Proof. by intros w l. Qed.

Lemma contains_bind {A B} (m : M W A) (f : A → M W B) :
  contains_boto_errors m → (∀ a, contains_boto_errors (f a)) →
  contains_boto_errors (m ≫= f).
Proof.
  intros Hm Hf w l. specialize (Hm w l). unfold mbind, M_bind, outcome_of in *.
  destruct (m w l) as [[[a|r|msg|e] w'] l']; simpl in *; try done. apply Hf.
Qed.

(** Whatever the body does, a handler that reports keeps the error in. *)
Lemma contains_try_except_BotoServerError {A} (m : M W A) h :
  (∀ e, contains_boto_errors (h e)) →
  contains_boto_errors (try_except_BotoServerError m h).
Proof.
  intros Hh w l. unfold try_except_BotoServerError, outcome_of.
  destruct (m w l) as [[[a|r|msg|[t| | |t]] w'] l']; simpl; try done. apply Hh.
Qed.

Lemma contains_try_except_Exception {A} (m : M W A) h :
  (∀ e, contains_boto_errors (h e)) →
  contains_boto_errors (try_except_Exception m h).
Proof.
  intros Hh w l. unfold try_except_Exception, outcome_of.
  destruct (m w l) as [[[a|r|msg|e] w'] l']; simpl; try done. apply Hh.
Qed.

Lemma terminal_exit_json {A} r : terminal (exit_json r : M W A).
Proof. by intros w l. Qed.

Lemma terminal_fail_json {A} msg : terminal (fail_json msg : M W A).
Proof. by intros w l. Qed.

Lemma terminal_bind {A B} (m : M W A) (f : A → M W B) :
  (∀ a, terminal (f a)) → terminal (m ≫= f).
Proof.
  intros Hf w l. unfold mbind, M_bind, outcome_of.
  destruct (m w l) as [[[a|r|msg|e] w'] l']; simpl; try done. apply Hf.
Qed.

End Routing.

Ltac contains_step :=
  match goal with
  | |- contains_boto_errors (mret _) => apply contains_ret
  | |- contains_boto_errors (exit_json _) => apply contains_exit_json
  | |- contains_boto_errors (fail_json _) => apply contains_fail_json
  | |- contains_boto_errors (raise IndexError) => by intros ? ?
  | |- contains_boto_errors (fail_json_exception _) => by intros ? ?
  | |- contains_boto_errors (try_except_Exception _ _) =>
      apply contains_try_except_Exception
  | |- contains_boto_errors (try_except_BotoServerError _ _) =>
      apply contains_try_except_BotoServerError
  | |- contains_boto_errors (_ ≫= _) => apply contains_bind
  | |- contains_boto_errors (if ?b then _ else _) => destruct b
  | |- contains_boto_errors (match ?x with _ => _ end) => destruct x
  | |- ∀ _, _ => intro
  end.

Section MoreProperties.
Context {W : Type} `{conn : !VPCConnection W}.
Variable boto_exception : exn → string.

Lemma contains_main p check_mode :
  contains_boto_errors (main boto_exception p check_mode).
Proof.
  unfold main, main_present, main_absent, present_diff, present_lookup,
    present_dhcp, present_tags, present_finish, present_dns, present_refetch,
    vpc_exists.
  repeat contains_step.
Qed.

Lemma terminal_main p check_mode : terminal (main boto_exception p check_mode).
Proof.
  unfold main. apply terminal_bind. intros _.
  destruct (state p); unfold main_present, main_absent, present_finish.
  - apply terminal_bind. intros [ch v]. apply terminal_bind. intros _.
    apply terminal_bind. intros v'. apply terminal_exit_json.
  - apply terminal_bind. intros o. apply terminal_bind. intros [ch v].
    apply terminal_exit_json.
Qed.

(** X1. However the provider behaves, [main] ends in [exit_json], in
    [fail_json], or with an exception that is not a [BotoServerError]: it
    never falls through, and no [BotoServerError] raised by a remote call
    leaves it as such. *)
Theorem main_reports_every_boto_error (p : params) (check_mode : bool) (w : W) :
  reported (outcome_of (run (main boto_exception p check_mode) w)).
Proof.
  pose proof (contains_main p check_mode w []) as H1.
  pose proof (terminal_main p check_mode w []) as H2.
  unfold run, reported. destruct (outcome_of _) as [a|r|msg|[t| | |t]]; done.
Qed.

End MoreProperties.

Section Branches.
Context {W : Type} `{conn : !VPCConnection W}.
Variable boto_exception : exn → string.

(** The [absent] branch, case by case on what the provider answers. *)
Lemma main_absent_eq (p : params) (check_mode : bool) (w : W) (l : list call) :
  let lookup := GetAllVpcs (ByFilters (name p) (cidr_block p)) in
  let gone (c : bool) (w' : W) (l' : list call) : outcome unit * W * list call :=
    (ExitJson {| changed := c; vpc := Some None |}, w', l') in
  main_absent boto_exception p check_mode w l =
  match get_all_vpcs (ByFilters (name p) (cidr_block p)) w with
  | (inl e, w') => (FailJson (boto_exception e), w', l ++ [lookup])
  | (inr vs, w') =>
      if multi_ok p then gone false w' (l ++ [lookup])
      else match vs with
           | [] => gone false w' (l ++ [lookup])
           | [v] =>
               if check_mode then gone true w' (l ++ [lookup])
               else match delete_vpc (vpc_id v) w' with
                    | (inr _, w'') => gone true w'' (l ++ [lookup; DeleteVpc (vpc_id v)])
                    | (inl (BotoServerError t), w'') =>
                        (FailJson (DependencyError (boto_exception (BotoServerError t))),
                         w'', l ++ [lookup; DeleteVpc (vpc_id v)])
                    | (inl e, w'') => (Uncaught e, w'', l ++ [lookup; DeleteVpc (vpc_id v)])
                    end
           | _ => (FailJson (AmbiguousResourceError (length vs)), w', l ++ [lookup])
           end
  end.
Proof.
  intros lookup gone. unfold main_absent, mbind, M_bind. rewrite vpc_exists_eq.
  fold lookup.
  destruct (get_all_vpcs _ w) as [[e|vs] w']; [done|].
  destruct (multi_ok p); [done|]. destruct vs as [|v [|v' vs]]; [done| |done].
  unfold try_except_BotoServerError, mbind, M_bind, invoke, gone, get_vpc_values.
  destruct check_mode; simpl; [done|].
  destruct (delete_vpc (vpc_id v) w') as [[[]|[]] w'']; simpl;
    by rewrite <- ?app_assoc.
Qed.

(** In check mode nothing is left to do after the tag step. *)
Lemma present_finish_check p changed v (w : W) l :
  present_finish boto_exception p true changed v w l
  = (ExitJson {| changed := changed; vpc := Some (Some v) |}, w, l).
Proof. done. Qed.

(** The flag the DHCP step hands on. *)
Lemma present_dhcp_flag p check_mode ch v (w w' : W) l l' ch' :
  present_dhcp p check_mode ch v w l = (Val ch', w', l') →
  ch' = match dhcp_opts_id p with
        | Some d => bool_decide (vpc_dhcp_options_id v ≠ d)
        | None => false
        end || ch.
Proof.
  rewrite present_dhcp_eq. destruct (dhcp_opts_id p) as [d|]; [|by intros [= <- _ _]].
  case_bool_decide; [|by intros [= <- _ _]].
  destruct check_mode; [by intros [= <- _ _]|].
  destruct (associate_dhcp_options _ _ w) as [[[]|[]] w'']; try done.
  by intros [= <- _ _].
Qed.

(** The flag the tag step hands on, and the listing it was computed from. *)
Lemma present_tags_flag p check_mode ch v (w w' : W) l l' ch' :
  present_tags boto_exception p check_mode ch v w l = (Val ch', w', l') →
  ∃ pairs w1, get_all_tags (vpc_id v) w = (inr pairs, w1)
    ∧ ch' = bool_decide (effective_tags (tags p) (name p) ≠ dict pairs) || ch.
Proof.
  rewrite present_tags_eq.
  destruct (get_all_tags (vpc_id v) w) as [[e|pairs] w1]; [done|].
  intros H. exists pairs, w1. split; [done|]. revert H.
  case_bool_decide; [|by intros [= <- _ _]].
  destruct check_mode; [by intros [= <- _ _]|].
  destruct (create_tags _ _ w1) as [[e|[]] w2]; [done|]. by intros [= <- _ _].
Qed.

(** X2. When the lookup call raises, whatever the exception, the branch, the
    mode and [multi_ok], the run fails with [boto_exception] of it and the
    lookup is the only call made. *)
Theorem lookup_failure_is_reported (p : params) (check_mode : bool) (w w' : W)
    (e : exn) :
  valid p →
  get_all_vpcs (ByFilters (name p) (cidr_block p)) w = (inl e, w') →
  run (main boto_exception p check_mode) w
  = (FailJson (boto_exception e), w', [GetAllVpcs (ByFilters (name p) (cidr_block p))]).
Proof.
  intros Hv He. unfold run. rewrite main_valid by done.
  destruct (state p).
  - unfold main_present, present_diff, mbind, M_bind.
    by rewrite present_lookup_eq, He.
  - by rewrite main_absent_eq, He.
Qed.

End Branches.

Section Accounting.
Context {W : Type} `{conn : !VPCConnection W}.
Variable boto_exception : exn → string.

(** What the lookup step has logged when it hands on an object. *)
Lemma present_lookup_val p check_mode (w w0 : W) l l0 ch0 v :
  present_lookup boto_exception p check_mode w l = (Val (ch0, v), w0, l0) →
  l0 = l ++ GetAllVpcs (ByFilters (name p) (cidr_block p))
         :: (if ch0 then [CreateVpc (cidr_block p) (tenancy p)] else []).
Proof.
  rewrite present_lookup_eq.
  destruct (get_all_vpcs _ w) as [[e|vs] w1]; [done|].
  destruct (multi_ok p), vs as [|v0 [|v1 vs]], check_mode; try done;
    try (by intros [= <- _ _ <-]);
    destruct (create_vpc _ _ w1) as [[[]|v'] w2]; try done;
    by intros [= <- _ _ <-].
Qed.

Lemma present_dhcp_val p check_mode ch v (w w' : W) l l' ch' :
  present_dhcp p check_mode ch v w l = (Val ch', w', l') →
  let differs := match dhcp_opts_id p with
                 | Some d => bool_decide (vpc_dhcp_options_id v ≠ d)
                 | None => false
                 end in
  ch' = differs || ch
  ∧ l' = l ++ (if differs && negb check_mode
               then [AssociateDhcpOptions (default "" (dhcp_opts_id p)) (vpc_id v)]
               else []).
Proof.
  rewrite present_dhcp_eq.
  destruct (dhcp_opts_id p) as [d|]; simpl;
    [|intros [= <- _ <-]; by rewrite app_nil_r].
  case_bool_decide; simpl; [|intros [= <- _ <-]; by rewrite app_nil_r].
  destruct check_mode; simpl; [intros [= <- _ <-]; by rewrite app_nil_r|].
  destruct (associate_dhcp_options _ _ w) as [[[]|[]] w'']; try done.
  by intros [= <- _ <-].
Qed.

Lemma present_tags_val p check_mode ch v (w w' : W) l l' ch' :
  present_tags boto_exception p check_mode ch v w l = (Val ch', w', l') →
  ∃ differs : bool,
    ch' = differs || ch
    ∧ l' = l ++ GetAllTags (vpc_id v)
             :: (if differs && negb check_mode
                 then [CreateTags (vpc_id v) (effective_tags (tags p) (name p))]
                 else []).
Proof.
  rewrite present_tags_eq.
  destruct (get_all_tags (vpc_id v) w) as [[e|pairs] w1]; [done|].
  case_bool_decide; [|intros [= <- _ <-]; by exists false].
  destruct check_mode; [intros [= <- _ <-]; by exists true|].
  destruct (create_tags _ _ w1) as [[e|[]] w2]; [done|].
  intros [= <- _ <-]. by exists true.
Qed.

Lemma present_finish_exit p check_mode ch v (w w' : W) l l' r :
  present_finish boto_exception p check_mode ch v w l = (ExitJson r, w', l') →
  changed r = ch
  ∧ l' = l ++ (if check_mode then []
               else [ModifyVpcAttribute (vpc_id v) (enable_dns_support (dns_support p));
                     ModifyVpcAttribute (vpc_id v) (enable_dns_hostnames (dns_hostnames p));
                     GetAllVpcs (ByIds (vpc_id v))]).
Proof.
  destruct check_mode.
  - rewrite present_finish_check. intros [= <- _ <-]. by rewrite app_nil_r.
  - rewrite present_finish_real.
    destruct (modify_vpc_attribute _ _ w) as [[[]|[]] w1]; try done.
    destruct (modify_vpc_attribute _ _ w1) as [[[]|[]] w2]; try done.
    destruct (get_all_vpcs _ w2) as [[[]|[|v' vs]] w3]; try done.
    intros [= <- _ <-]. by rewrite <- !app_assoc.
Qed.

(** A run of the [present] branch that exits normally either left at the
    check-mode exit of the lookup step or went through every step. *)
Lemma main_present_exit_inv p check_mode (w w' : W) l l' r :
  main_present boto_exception p check_mode w l = (ExitJson r, w', l') →
  present_lookup boto_exception p check_mode w l = (ExitJson r, w', l')
  ∨ ∃ ch0 v w0 l0 ch1 wa la ch2 wb lb,
      present_lookup boto_exception p check_mode w l = (Val (ch0, v), w0, l0)
      ∧ present_dhcp p check_mode ch0 v w0 l0 = (Val ch1, wa, la)
      ∧ present_tags boto_exception p check_mode ch1 v wa la = (Val ch2, wb, lb)
      ∧ present_finish boto_exception p check_mode ch2 v wb lb = (ExitJson r, w', l').
Proof.
  unfold main_present, present_diff, mbind, M_bind.
  destruct (present_lookup _ _ _ w l) as [[[[ch0 v]|r0|m0|e0] w0] l0] eqn:E1;
    try done; [|intros [= -> -> ->]; by left].
  destruct (present_dhcp _ _ _ v w0 l0) as [[[ch1|r1|m1|e1] wa] la] eqn:E2; try done.
  - destruct (present_tags _ _ _ _ v wa la) as [[[ch2|r2|m2|e2] wb] lb] eqn:E3;
      try done.
    + intros H. right. by exists ch0, v, w0, l0, ch1, wa, la, ch2, wb, lb.
    + rewrite present_tags_eq in E3. repeat case_match; done.
  - rewrite present_dhcp_eq in E2. repeat case_match; done.
Qed.

(** X3. In a real run that exits normally, [changed] is true exactly when
    the run made a create, delete, tag-writing or DHCP-association call; the
    DNS attribute writes do not count. *)
Theorem changed_counts_the_writes (p : params) (w w' : W) (r : result)
    (l' : list call) :
  run (main boto_exception p false) w = (ExitJson r, w', l') →
  changed r = existsb counted_write l'.
Proof.
  unfold run. intros Hrun.
  assert (Hv : valid p).
  { intros Hh. destruct (dns_support p) eqn:E; [done|].
    unfold main, mbind, M_bind in Hrun. by rewrite Hh, E in Hrun. }
  rewrite main_valid in Hrun by done. destruct (state p).
  - apply main_present_exit_inv in Hrun as [Hrun|Hrun].
    { rewrite present_lookup_eq in Hrun. repeat case_match; done. }
    destruct Hrun as (ch0 & v & w0 & l0 & ch1 & wa & la & ch2 & wb & lb
                      & H1 & H2 & H3 & H4).
    apply present_lookup_val in H1. apply present_dhcp_val in H2 as [-> H2].
    apply present_tags_val in H3 as (T & -> & H3).
    apply present_finish_exit in H4 as [-> H4]. subst.
    rewrite !existsb_app. simpl.
    destruct ch0, T, (match dhcp_opts_id p with Some _ => _ | None => _ end); done.
  - rewrite main_absent_eq in Hrun.
    destruct (get_all_vpcs _ w) as [[e|vs] w1]; [done|].
    destruct (multi_ok p); [by injection Hrun as <- _ <-|].
    destruct vs as [|v [|v' vs]]; [by injection Hrun as <- _ <-| |done].
    destruct (delete_vpc _ w1) as [[[]|[]] w2]; try done. by injection Hrun as <- _ <-.
Qed.

(** X4. The [present] branch never calls [delete_vpc]; the [absent] branch
    calls nothing but the filtered lookup and [delete_vpc]. *)
Theorem branches_keep_to_their_calls (p : params) (check_mode : bool) (w : W) :
  Forall (λ c, match state p with
               | present => is_delete c = false
               | absent => is_find c = true ∨ is_delete c = true
               end)
         (calls_of (run (main boto_exception p check_mode) w)).
Proof.
  apply emits_run. unfold main. apply emits_bind; [destruct (_ && _); emits_step|].
  intros _. destruct (state p).
  - unfold main_present, present_diff, present_lookup, present_dhcp, present_tags,
      present_finish, present_dns, present_refetch, vpc_exists, update_vpc_tags,
      update_dhcp_opts.
    repeat emits_step; simpl; auto.
  - unfold main_absent, vpc_exists. repeat emits_step; simpl; auto.
Qed.

(** X5. Without [multi_ok], when the lookup returns one match, the [absent]
    branch reports [changed=true] and no resource: in check mode after the
    lookup alone, in a real run after deleting the match. A [BotoServerError]
    from the delete becomes a failure whose message ends with the advice on
    dependent resources; any other exception is let through. *)
Theorem absent_deletes_the_match (p : params) (w w' : W) (v : vpc_object) :
  state p = absent → multi_ok p = false → valid p →
  get_all_vpcs (ByFilters (name p) (cidr_block p)) w = (inr [v], w') →
  let lookup := GetAllVpcs (ByFilters (name p) (cidr_block p)) in
  let gone := {| changed := true; vpc := Some None |} in
  run (main boto_exception p true) w = (ExitJson gone, w', [lookup]) ∧
  run (main boto_exception p false) w =
  match delete_vpc (vpc_id v) w' with
  | (inr _, w'') => (ExitJson gone, w'', [lookup; DeleteVpc (vpc_id v)])
  | (inl (BotoServerError t), w'') =>
      (FailJson (DependencyError (boto_exception (BotoServerError t))), w'',
       [lookup; DeleteVpc (vpc_id v)])
  | (inl e, w'') => (Uncaught e, w'', [lookup; DeleteVpc (vpc_id v)])
  end.
Proof.
  intros Hs Hm Hv Hf lookup gone. unfold run.
  rewrite !main_valid, Hs by done. rewrite !main_absent_eq, Hf, Hm. done.
Qed.

(** X6. Without [multi_ok], when the lookup returns nothing, the [absent]
    branch exits with [changed=false] and no resource, in either mode, the
    lookup being the only call. *)
Theorem absent_on_missing (p : params) (check_mode : bool) (w w' : W) :
  state p = absent → multi_ok p = false → valid p →
  get_all_vpcs (ByFilters (name p) (cidr_block p)) w = (inr [], w') →
  run (main boto_exception p check_mode) w
  = (ExitJson {| changed := false; vpc := Some None |}, w',
     [GetAllVpcs (ByFilters (name p) (cidr_block p))]).
Proof.
  intros Hs Hm Hv Hf. unfold run.
  rewrite main_valid, Hs by done. by rewrite main_absent_eq, Hf, Hm.
Qed.

(** X7. When nothing matches, the VPC is created, and the DHCP association
    then fails with a [BotoServerError], line 286 hands the exception object
    to [fail_json]: the run produces no failure message and ends with an
    uncaught [TypeError], and it stops there: no delete call undoes the
    creation and no tag has been written, so the new VPC stays behind without
    its [Name] tag. *)
Theorem failed_association_leaves_the_new_vpc (p : params) (w w1 w2 w3 : W)
    (v : vpc_object) (d t : string) :
  state p = present → multi_ok p = false → valid p →
  get_all_vpcs (ByFilters (name p) (cidr_block p)) w = (inr [], w1) →
  create_vpc (cidr_block p) (tenancy p) w1 = (inr v, w2) →
  dhcp_opts_id p = Some d → vpc_dhcp_options_id v ≠ d →
  associate_dhcp_options d (vpc_id v) w2 = (inl (BotoServerError t), w3) →
  run (main boto_exception p false) w
  = (Uncaught TypeError, w3,
     [GetAllVpcs (ByFilters (name p) (cidr_block p));
      CreateVpc (cidr_block p) (tenancy p);
      AssociateDhcpOptions d (vpc_id v)]).
Proof.
  intros Hs Hm Hv Hf Hc Hd Hne Ha. unfold run.
  rewrite main_valid, Hs by done.
  unfold main_present, present_diff, mbind, M_bind.
  rewrite present_lookup_eq, Hf, Hm, Hc. cbv beta iota zeta.
  rewrite present_dhcp_eq, Hd, bool_decide_eq_true_2, Ha by done. done.
Qed.

End Accounting.

Section Creation.
Context {W : Type} `{conn : !VPCConnection W}.
Variable boto_exception : exn → string.

(** What follows a step only adds to what the step has logged. *)
Lemma emits_after {A B} (P : call → Prop) (m : M W A) (f : A → M W B) w l :
  (∀ a, emits P (f a)) →
  ∃ rest, calls_of ((m ≫= f) w l) = calls_of (m w l) ++ rest ∧ Forall P rest.
Proof.
  intros Hf. unfold mbind, M_bind.
  destruct (m w l) as [[[a|r|msg|e] w'] l']; simpl;
    try (exists []; by rewrite app_nil_r).
  apply Hf.
Qed.

(** The [present] branch as the lookup step followed by the rest. *)
Lemma main_present_after_lookup p check_mode (w : W) l :
  main_present boto_exception p check_mode w l =
  (present_lookup boto_exception p check_mode
   ≫= present_after_lookup boto_exception p check_mode) w l.
Proof.
  unfold main_present, present_after_lookup, present_diff, mbind, M_bind.
  destruct (present_lookup _ _ _ w l) as [[[[ch0 v]|r0|m0|e0] w0] l0]; try done.
  simpl. destruct (present_dhcp _ _ _ v w0 l0) as [[[ch1|r1|m1|e1] wa] la]; try done.
  by destruct (present_tags _ _ _ _ v wa la) as [[[ch2|r2|m2|e2] wb] lb].
Qed.

(** What the lookup step logs, however it ends. *)
Lemma present_lookup_calls p check_mode (w : W) l :
  ∃ created : bool,
    calls_of (present_lookup boto_exception p check_mode w l)
    = l ++ GetAllVpcs (ByFilters (name p) (cidr_block p))
        :: (if created then [CreateVpc (cidr_block p) (tenancy p)] else [])
    ∧ (created = true → check_mode = false).
Proof.
  rewrite present_lookup_eq.
  destruct (get_all_vpcs _ w) as [[e|vs] w1]; [by exists false|].
  destruct (multi_ok p), vs as [|v0 [|v1 vs]], check_mode;
    try (by exists false);
    destruct (create_vpc _ _ w1) as [[[]|v'] w2]; by exists true.
Qed.

(** X8. A [create_vpc] call is only ever the second call of a run, right
    after the lookup, in a real run of the [present] branch, and it carries
    the CIDR block and tenancy of the parameters: a run creates at most one
    VPC. *)
Theorem create_only_right_after_the_lookup (p : params) (check_mode : bool) (w : W)
    (i : nat) (c : call) :
  calls_of (run (main boto_exception p check_mode) w) !! i = Some c →
  is_create c = true →
  i = 1 ∧ check_mode = false ∧ state p = present
  ∧ c = CreateVpc (cidr_block p) (tenancy p).
Proof.
  unfold run, main. unfold mbind at 1. unfold M_bind.
  destruct (dns_hostnames p && negb (dns_support p)); [done|]. simpl.
  destruct (state p).
  - rewrite main_present_after_lookup.
    destruct (emits_after (λ c, is_create c = false)
                (present_lookup boto_exception p check_mode)
                (present_after_lookup boto_exception p check_mode) w [])
      as (rest & -> & Hrest).
    { intros [ch v]. unfold present_after_lookup, present_dhcp, present_tags,
        present_finish, present_dns, present_refetch, update_vpc_tags,
        update_dhcp_opts. simpl.
      repeat emits_step; simpl; auto. }
    destruct (present_lookup_calls p check_mode w []) as (created & -> & Hc).
    rewrite Forall_forall in Hrest. simpl. intros Hi Hcr.
    assert (c ∉ rest) as Hnot.
    { intros Hin. by rewrite (Hrest _ Hin) in Hcr. }
    destruct created; simpl in Hi.
    + destruct i as [|[|i]]; simpl in Hi.
      * by injection Hi as <-.
      * injection Hi as <-. by rewrite Hc.
      * by apply list_elem_of_lookup_2 in Hi.
    + destruct i as [|i]; simpl in Hi.
      * by injection Hi as <-.
      * by apply list_elem_of_lookup_2 in Hi.
  - intros Hi Hcr. exfalso.
    assert (emits (λ c, is_create c = false) (main_absent boto_exception p check_mode))
      as He.
    { unfold main_absent, vpc_exists. repeat emits_step; simpl; auto. }
    apply (emits_run _ _ w) in He. unfold run in He. rewrite Forall_forall in He.
    apply list_elem_of_lookup_2 in Hi. by rewrite (He _ Hi) in Hcr.
Qed.

End Creation.

(** The guards make each [pop] a plain removal. *)
Lemma get_vpc_values_eq (d : gmap string attr) :
  ObjectDict.get_vpc_values (Some d)
  = Some (delete "connection" (delete "item" (delete "region" d))).
Proof.
  assert (∀ (k : string) (m : gmap string attr),
            (if bool_decide (k ∈ dom m) then delete k m else m) = delete k m) as Hpop.
  { intros k m. case_bool_decide as H; [done|].
    symmetry. apply delete_id. by apply not_elem_of_dom. }
  unfold ObjectDict.get_vpc_values. by rewrite !Hpop.
Qed.

Lemma three_keys (k : string) :
  k ∈ ["region"; "item"; "connection"] ↔ k = "region" ∨ k = "item" ∨ k = "connection".
Proof.
  rewrite !elem_of_cons, elem_of_nil. split.
  - intros [?|[?|[?|[]]]]; auto.
  - intros [?|[?|?]]; auto.
Qed.

Lemma lookup_after_pops (d : gmap string attr) (k : string) :
  delete "connection" (delete "item" (delete "region" d)) !! k
  = if bool_decide (k ∈ ["region"; "item"; "connection"]) then None else d !! k.
Proof.
  destruct (decide (k = "connection")) as [->|H1]; [by rewrite lookup_delete_eq|].
  rewrite lookup_delete_ne by done.
  destruct (decide (k = "item")) as [->|H2]; [by rewrite lookup_delete_eq|].
  rewrite lookup_delete_ne by done.
  destruct (decide (k = "region")) as [->|H3]; [by rewrite lookup_delete_eq|].
  rewrite lookup_delete_ne by done.
  rewrite bool_decide_eq_false_2; [done|].
  rewrite three_keys. by intros [?|[?|?]].
Qed.

(** X9. On the object's dictionary, [get_vpc_values] removes [region],
    [item] and [connection], whether or not each is there, keeps every other
    attribute as it is, and applied again changes nothing. *)
Theorem get_vpc_values_drops_three_keys (d : gmap string attr) :
  ∃ d', ObjectDict.get_vpc_values (Some d) = Some d'
    ∧ (∀ k, d' !! k = if bool_decide (k ∈ ["region"; "item"; "connection"])
                      then None else d !! k)
    ∧ ObjectDict.get_vpc_values (Some d') = Some d'.
Proof.
  eexists. split; [apply get_vpc_values_eq|]. split; [apply lookup_after_pops|].
  rewrite get_vpc_values_eq. f_equal. apply map_eq. intros k.
  rewrite !lookup_after_pops. by case_bool_decide.
Qed.

(** X10. Reading the eight returned attributes from the dictionary that
    [get_vpc_values] leaves gives back the VPC record, whatever the object
    held under [region], [item] and [connection], and whether its
    [classic_link_enabled] is a boolean or, as on the objects the module
    handles, [None]: the record form of [get_vpc_values] loses nothing. *)
Theorem get_vpc_values_keeps_the_returned_attributes (v : vpc_object)
    (region item connection : option attr) :
  ObjectDict.get_vpc_values (Some (ObjectDict.of_vpc v region item connection))
  ≫= ObjectDict.to_vpc
  = get_vpc_values (Some v).
Proof.
  rewrite get_vpc_values_eq. simpl. unfold ObjectDict.to_vpc.
  rewrite !lookup_after_pops.
  rewrite !bool_decide_eq_false_2
    by (rewrite three_keys; by intros [?|[?|?]]).
  assert (∀ k, k ≠ "region" → k ≠ "item" → k ≠ "connection" →
            ObjectDict.of_vpc v region item connection !! k
            = (list_to_map
      [("id", AStr (vpc_id v)); ("cidr_block", AStr (vpc_cidr_block v));
       ("state", AStr (vpc_state v)); ("tags", ATags (vpc_tags v));
       ("dhcp_options_id", AStr (vpc_dhcp_options_id v));
       ("instance_tenancy", AStr (ObjectDict.tenancy_str (vpc_instance_tenancy v)));
       ("is_default", ABool (vpc_is_default v));
       ("classic_link_enabled", ObjectDict.flag (vpc_classic_link_enabled v))]
       : gmap string attr) !! k) as Hk.
  { intros k H1 H2 H3. unfold ObjectDict.of_vpc.
    destruct region, item, connection; rewrite ?lookup_insert_ne by done; done. }
  rewrite !Hk by done.
  simpl. destruct v as [i c s t o [] df [[]|]]; done.
Qed.

Section Prelude.
Context {W : Type} `{conn : !VPCConnection W}.
Variable boto_exception : exn → string.

(** X11. [main] makes no remote call unless boto is there, a non-empty
    region is known, the connection was obtained and the DNS parameters are
    consistent. *)
Theorem no_call_before_the_checks_pass (HAS_BOTO : bool) (region : option string)
    (connect_to_aws : option connect_error) (p : params) (check_mode : bool) (w : W) :
  calls_of (run (module_main boto_exception HAS_BOTO region connect_to_aws p check_mode) w)
  ≠ [] →
  HAS_BOTO = true ∧ (∃ r, region = Some r ∧ r ≠ "") ∧ connect_to_aws = None ∧ valid p.
Proof.
  unfold run, module_main, mbind, M_bind.
  destruct HAS_BOTO; simpl; [|done].
  case_bool_decide as Hr; simpl; [|done].
  destruct connect_to_aws as [[t|t|e]|]; simpl; try done.
  intros Hcalls. split; [done|]. split; [|split; [done|]].
  - destruct Hr as [Hr1 Hr2]. destruct region as [r|]; [|done].
    exists r. split; [done|]. by intros ->.
  - intros Hh. destruct (dns_support p) eqn:Hs; [done|].
    exfalso. apply Hcalls. unfold main, mbind, M_bind. by rewrite Hh, Hs.
Qed.

End Prelude.

Section CloudRuns.
Import Cloud.
Variable boto_exception : exn → string.
Variable p : params.

Lemma put_lookup id e c : vpcs (put id e c) !! id = Some e.
Proof. apply lookup_insert_eq. Qed.

Lemma put_put id e1 e2 c : put id e2 (put id e1 c) = put id e2 c.
Proof. unfold put, with_vpcs. simpl. by rewrite insert_insert_eq. Qed.

Lemma put_same id e c : vpcs c !! id = Some e → put id e c = c.
Proof. intros H. unfold put. rewrite insert_id by done. by destruct c. Qed.

Lemma update_put f id e c :
  vpcs c !! id = Some e → update f id c = (inr (), put id (f e) c).
Proof. intros H. unfold update. by rewrite H. Qed.

Lemma find_answers c :
  find (ByFilters (name p) (cidr_block p)) c = (inr (to_vpc <$> answers p c), c).
Proof. done. Qed.

Lemma answers_lookup c id e :
  (id, e) ∈ answers p c →
  vpcs c !! id = Some e ∧ e_tags e !! "Name" = Some (name p)
  ∧ e_cidr_block e = cidr_block p.
Proof.
  unfold answers. rewrite elem_of_map_to_list. by intros ?%map_lookup_filter_Some.
Qed.

(** The lookup step of a real run binds the entry [bound_entry] names. *)
Lemma cloud_lookup_real c c0 l l0 ch0 v :
  present_lookup boto_exception p false c l = (Val (ch0, v), c0, l0) →
  ∃ id e, bound_entry p c = Some (ch0, (id, e)) ∧ v = to_vpc (id, e)
    ∧ c0 = (if ch0 then put id e c else c) ∧ vpcs c0 !! id = Some e
    ∧ (ch0 = false → (id, e) ∈ answers p c).
Proof.
  rewrite present_lookup_eq. cbn [get_all_vpcs create_vpc connection].
  rewrite find_answers. unfold bound_entry, create.
  destruct (multi_ok p).
  { intros [= <- <- <- _]. eexists _, _. split; [done|]. split; [done|].
    split; [done|]. split; [apply put_lookup|done]. }
  destruct (answers p c) as [|[id e] [|kv' rest]] eqn:Ea; simpl; [| |done].
  - intros [= <- <- <- _]. eexists _, _. split; [done|]. split; [done|].
    split; [done|]. split; [apply put_lookup|done].
  - intros [= <- <- <- _]. exists id, e. split; [done|]. split; [done|].
    split; [done|].
    assert ((id, e) ∈ answers p c) as Hin by (rewrite Ea; apply list_elem_of_here).
    split; [by apply answers_lookup in Hin as [? _]|].
    intros _. apply list_elem_of_here.
Qed.

Lemma set_dhcp_same d e : e_dhcp_options_id e = d → set_dhcp d e = e.
Proof. intros <-. by destruct e. Qed.

Lemma add_tags_same t e : e_tags e = t → add_tags t e = e.
Proof.
  intros <-. destruct e. unfold add_tags. simpl. by rewrite (idemp_L (∪)).
Qed.

Lemma cloud_dhcp_real c c' id e v ch ch' l l' :
  vpcs c !! id = Some e → vpc_id v = id →
  vpc_dhcp_options_id v = e_dhcp_options_id e →
  present_dhcp p false ch v c l = (Val ch', c', l') →
  c' = put id (match dhcp_opts_id p with Some d => set_dhcp d e | None => e end) c
  ∧ ch' = match dhcp_opts_id p with
          | Some d => bool_decide (e_dhcp_options_id e ≠ d)
          | None => false
          end || ch.
Proof.
  intros He Hid Hd Hrun. split; [|apply present_dhcp_flag in Hrun; by rewrite <- Hd].
  revert Hrun. rewrite present_dhcp_eq.
  destruct (dhcp_opts_id p) as [d|]; [|intros [= _ <- _]; by rewrite put_same].
  case_bool_decide as Hne.
  - cbn [associate_dhcp_options connection]. unfold associateDhcpOptions.
    case_bool_decide; [|done]. rewrite Hid, (update_put _ _ e) by done.
    by intros [= _ <- _].
  - intros [= _ <- _]. rewrite put_same; [done|].
    rewrite set_dhcp_same; [done|congruence].
Qed.

Lemma cloud_tags_real c c' id e v ch ch' l l' :
  vpcs c !! id = Some e → vpc_id v = id →
  present_tags boto_exception p false ch v c l = (Val ch', c', l') →
  c' = put id (add_tags (effective_tags (tags p) (name p)) e) c
  ∧ ch' = bool_decide (effective_tags (tags p) (name p) ≠ e_tags e) || ch.
Proof.
  intros He Hid. rewrite present_tags_eq.
  cbn [get_all_tags create_tags connection]. unfold getTags, setTags.
  rewrite Hid, He, dict_map_to_list. case_bool_decide as Hne.
  - rewrite (update_put _ _ e) by done. by intros [= <- <- _].
  - intros [= <- <- _]. split; [|done]. rewrite put_same; [done|].
    by rewrite add_tags_same.
Qed.

Lemma cloud_finish_real c c' id e v ch r l l' :
  vpcs c !! id = Some e → vpc_id v = id →
  present_finish boto_exception p false ch v c l = (ExitJson r, c', l') →
  let e' := set_attribute (enable_dns_hostnames (dns_hostnames p))
              (set_attribute (enable_dns_support (dns_support p)) e) in
  c' = put id e' c
  ∧ r = {| changed := ch; vpc := Some (Some (to_vpc (id, e'))) |}.
Proof.
  intros He Hid. rewrite present_finish_real.
  cbn [modify_vpc_attribute get_all_vpcs connection]. unfold setDnsAttribute.
  rewrite Hid, (update_put _ _ e) by done.
  rewrite (update_put _ _ _ _ (put_lookup _ _ _)), put_put.
  unfold find. rewrite put_lookup. by intros [= <- <- _].
Qed.

(** A real run of the [present] branch that exits normally, in full. *)
Lemma cloud_present_exact c c1 r l1 :
  state p = present →
  run (main boto_exception p false) c = (ExitJson r, c1, l1) →
  ∃ created id e,
    bound_entry p c = Some (created, (id, e))
    ∧ c1 = put id (reconciled p e) c
    ∧ r = {| changed := would_change p created e;
             vpc := Some (Some (to_vpc (id, reconciled p e))) |}.
Proof.
  intros Hs Hrun.
  assert (Hv : valid p).
  { intros Hh. destruct (dns_support p) eqn:E; [done|].
    unfold run, main, mbind, M_bind in Hrun. by rewrite Hh, E in Hrun. }
  unfold run in Hrun. rewrite main_valid, Hs in Hrun by done.
  apply main_present_exit_inv in Hrun as [Hrun|Hrun].
  { rewrite present_lookup_eq in Hrun. repeat case_match; done. }
  destruct Hrun as (ch0 & v & c0 & l0 & ch1 & ca & la & ch2 & cb & lb
                    & H1 & H2 & H3 & H4).
  apply cloud_lookup_real in H1 as (id & e & Hb & Hvv & Hc0 & He & _).
  assert (vpc_id v = id ∧ vpc_dhcp_options_id v = e_dhcp_options_id e) as [Hid Hd]
    by by rewrite Hvv.
  destruct (cloud_dhcp_real _ _ _ _ _ _ _ _ _ He Hid Hd H2) as [Hca Hch1].
  pose proof (put_lookup id
    (match dhcp_opts_id p with Some d => set_dhcp d e | None => e end) c0) as He1.
  rewrite <- Hca in He1.
  destruct (cloud_tags_real _ _ _ _ _ _ _ _ _ He1 Hid H3) as [Hcb Hch2].
  pose proof (put_lookup id (add_tags (effective_tags (tags p) (name p))
    (match dhcp_opts_id p with Some d => set_dhcp d e | None => e end)) ca) as He2.
  rewrite <- Hcb in He2.
  destruct (cloud_finish_real _ _ _ _ _ _ _ _ _ He2 Hid H4) as [Hc1 Hr].
  exists ch0, id, e. split; [done|].
  rewrite Hc1, Hcb, Hca, !put_put.
  assert (∀ x, put id x c0 = put id x c) as ->.
  { intros x. rewrite Hc0. destruct ch0; [apply put_put|done]. }
  split; [done|]. rewrite Hr, Hch2, Hch1. unfold would_change, reconciled.
  repeat f_equal. by destruct (dhcp_opts_id p).
Qed.

End CloudRuns.

Section CloudOutcomes.
Import Cloud.
Variable boto_exception : exn → string.
Variable p : params.

(** What [bound_entry] names: a new entry under an unused id, or the one
    entry that answers the lookup. *)
Lemma bound_entry_inv c created id e :
  bound_entry p c = Some (created, (id, e)) →
  e_cidr_block e = cidr_block p
  ∧ if created
    then vpcs c !! id = None ∧ e = new_entry c (cidr_block p) (tenancy p)
         ∧ (multi_ok p = false → answers p c = [])
    else vpcs c !! id = Some e ∧ multi_ok p = false ∧ answers p c = [(id, e)].
Proof.
  unfold bound_entry.
  assert (vpcs c !! fresh (dom (vpcs c)) = None) as Hfresh
    by apply not_elem_of_dom, is_fresh.
  destruct (multi_ok p); [by intros [= <- <- <-]|].
  destruct (answers p c) as [|[id' e'] [|kv rest]] eqn:Ea; [| |done].
  - by intros [= <- <- <-].
  - intros [= <- <- <-].
    assert ((id', e') ∈ answers p c) as Hin by (rewrite Ea; apply list_elem_of_here).
    apply answers_lookup in Hin as (? & ? & ?). done.
Qed.

Lemma reconciled_fields e :
  e_cidr_block (reconciled p e) = e_cidr_block e
  ∧ e_tags (reconciled p e) = effective_tags (tags p) (name p) ∪ e_tags e
  ∧ e_dhcp_options_id (reconciled p e) = default (e_dhcp_options_id e) (dhcp_opts_id p)
  ∧ e_dns_support (reconciled p e) = dns_support p
  ∧ e_dns_hostnames (reconciled p e) = dns_hostnames p
  ∧ e_dependents (reconciled p e) = e_dependents e.
Proof. unfold reconciled. by destruct (dhcp_opts_id p). Qed.

Lemma reconciled_matches id e :
  e_cidr_block e = cidr_block p →
  matches (name p) (cidr_block p) (id, reconciled p e).
Proof.
  intros Hc. destruct (reconciled_fields e) as (Hc' & Ht & _).
  unfold matches. cbn [snd]. split.
  - rewrite Ht. apply lookup_union_Some_l.
    rewrite effective_tags_lookup. by rewrite decide_True.
  - congruence.
Qed.

(** X12. On the reference provider, a real run of the [present] branch that
    exits normally returns a resource with the requested CIDR block and,
    when one is given, the requested DHCP options id. Its tags are the
    effective tags laid over the tags the VPC had before the run (none if
    the run created it): every effective tag is there, and a tag the VPC had
    under another key is still there. The provider holds that resource under
    its id, with the DNS attributes of the parameters. *)
Theorem present_run_reconciles (c c1 : Cloud.t) (r : result) (l1 : list call) :
  state p = present →
  run (main boto_exception p false) c = (ExitJson r, c1, l1) →
  ∃ v e,
    resource r = Some v
    ∧ vpc_cidr_block v = cidr_block p
    ∧ vpc_tags v
      = effective_tags (tags p) (name p) ∪ default ∅ (e_tags <$> vpcs c !! vpc_id v)
    ∧ (∀ k x, effective_tags (tags p) (name p) !! k = Some x →
         vpc_tags v !! k = Some x)
    ∧ (∀ d, dhcp_opts_id p = Some d → vpc_dhcp_options_id v = d)
    ∧ vpcs c1 !! vpc_id v = Some e ∧ v = to_vpc (vpc_id v, e)
    ∧ e_dns_support e = dns_support p ∧ e_dns_hostnames e = dns_hostnames p.
Proof.
  intros Hs Hrun.
  destruct (cloud_present_exact _ _ _ _ _ _ Hs Hrun) as (cr & id & e & Hb & -> & ->).
  apply bound_entry_inv in Hb as [Hc Hb].
  destruct (reconciled_fields e) as (Hc' & Ht & Hd & Hsup & Hhost & _).
  exists (to_vpc (id, reconciled p e)), (reconciled p e).
  unfold to_vpc. cbn [vpc_cidr_block vpc_tags vpc_dhcp_options_id vpc_id fst snd].
  split; [done|]. split; [congruence|].
  split; [|split; [|split; [intros d Hdd; by rewrite Hd, Hdd|]]].
  - rewrite Ht. destruct cr.
    + destruct Hb as (-> & -> & _). done.
    + destruct Hb as (-> & _). done.
  - intros k x Hk. rewrite Ht. by apply lookup_union_Some_l.
  - split; [apply put_lookup|done].
Qed.

(** X13. On the reference provider, a real run of the [present] branch that
    exits normally leaves every VPC other than the one it returns, and the
    DHCP option sets, as they were. *)
Theorem present_run_touches_one_entry (c c1 : Cloud.t) (r : result) (l1 : list call) :
  state p = present →
  run (main boto_exception p false) c = (ExitJson r, c1, l1) →
  ∃ v, resource r = Some v
    ∧ (∀ k, k ≠ vpc_id v → vpcs c1 !! k = vpcs c !! k)
    ∧ dhcp_options c1 = dhcp_options c
    ∧ default_dhcp_options_id c1 = default_dhcp_options_id c.
Proof.
  intros Hs Hrun.
  destruct (cloud_present_exact _ _ _ _ _ _ Hs Hrun) as (cr & id & e & Hb & -> & ->).
  exists (to_vpc (id, reconciled p e)). split; [done|]. split; [|done].
  intros k Hk. simpl in *. by rewrite lookup_insert_ne.
Qed.

(** The check-mode run of the [present] branch, from what [bound_entry]
    names. *)
Lemma cloud_present_check c created id e :
  state p = present → valid p →
  bound_entry p c = Some (created, (id, e)) →
  ∃ r' l', run (main boto_exception p true) c = (ExitJson r', c, l')
    ∧ changed r' = would_change p created e.
Proof.
  intros Hs Hv Hb. unfold run. rewrite main_valid, Hs by done.
  unfold main_present, present_diff, mbind, M_bind, mret, M_ret.
  rewrite present_lookup_eq. cbn [get_all_vpcs connection]. rewrite find_answers.
  apply bound_entry_inv in Hb as [_ Hb].
  assert (would_change p true e = true) as Htrue.
  { unfold would_change. by rewrite !orb_true_r. }
  destruct created.
  - destruct Hb as (_ & _ & Ha).
    destruct (multi_ok p); [by eexists _, _|]. rewrite Ha by done. by eexists _, _.
  - destruct Hb as (He & -> & ->). simpl.
    rewrite present_dhcp_eq. simpl.
    assert (∀ (X : Type) (a b : X) (cnd : bool),
              (if cnd then (if true then a else b) else a) = a) as Hif
      by (by intros ? ? ? []).
    destruct (dhcp_opts_id p) as [d|] eqn:Ed.
    + destruct (bool_decide (e_dhcp_options_id e ≠ d)) eqn:ED;
        rewrite present_tags_eq; cbn [get_all_tags connection vpc_id to_vpc fst];
        unfold getTags; rewrite He, dict_map_to_list;
        destruct (bool_decide (effective_tags (tags p) (name p) ≠ e_tags e)) eqn:ET;
        cbv beta iota zeta; rewrite present_finish_check; eexists _, _;
        (split; [done|]); unfold would_change; simpl; by rewrite Ed, ED, ET.
    + rewrite present_tags_eq; cbn [get_all_tags connection vpc_id to_vpc fst];
        unfold getTags; rewrite He, dict_map_to_list;
        destruct (bool_decide (effective_tags (tags p) (name p) ≠ e_tags e)) eqn:ET;
        cbv beta iota zeta; rewrite present_finish_check; eexists _, _;
        (split; [done|]); unfold would_change; simpl; by rewrite Ed, ET.
Qed.

(** X14. On the reference provider, whenever a real run exits normally, the
    check-mode run from the same state exits normally with the same
    [changed], and leaves the provider as it is. *)
Theorem check_mode_predicts_the_real_run (c c1 : Cloud.t) (r : result)
    (l1 : list call) :
  run (main boto_exception p false) c = (ExitJson r, c1, l1) →
  ∃ r' l', run (main boto_exception p true) c = (ExitJson r', c, l')
    ∧ changed r' = changed r.
Proof.
  intros Hrun.
  assert (Hv : valid p).
  { intros Hh. destruct (dns_support p) eqn:E; [done|].
    unfold run, main, mbind, M_bind in Hrun. by rewrite Hh, E in Hrun. }
  destruct (state p) eqn:Hs.
  - destruct (cloud_present_exact _ _ _ _ _ _ Hs Hrun) as (cr & id & e & Hb & _ & ->).
    destruct (cloud_present_check c cr id e Hs Hv Hb) as (r' & l' & H1 & H2).
    by exists r', l'.
  - unfold run in *. rewrite main_valid, Hs in Hrun |- * by done.
    rewrite main_absent_eq in Hrun |- *. cbn [get_all_vpcs delete_vpc connection] in *.
    rewrite find_answers in Hrun |- *.
    destruct (multi_ok p); [injection Hrun as <- _ _; by eexists _, _|].
    destruct (answers p c) as [|[id e] [|kv rest]]; simpl in *; [| |done].
    + injection Hrun as <- _ _. by eexists _, _.
    + destruct (delete id c) as [[[]|[]] c']; try done.
      injection Hrun as <- _ _. by eexists _, _.
Qed.

(** X15. On the reference provider, with [multi_ok], every real run of the
    [present] branch that exits normally reports a change and leaves exactly
    one more VPC answering the lookup. *)
Theorem duplicates_grow_by_one (c c1 : Cloud.t) (r : result) (l1 : list call) :
  state p = present → multi_ok p = true →
  run (main boto_exception p false) c = (ExitJson r, c1, l1) →
  changed r = true ∧ length (answers p c1) = S (length (answers p c)).
Proof.
  intros Hs Hm Hrun.
  destruct (cloud_present_exact _ _ _ _ _ _ Hs Hrun) as (cr & id & e & Hb & -> & ->).
  pose proof Hb as Hb'. unfold bound_entry in Hb'. rewrite Hm in Hb'.
  injection Hb' as <- _ _.
  apply bound_entry_inv in Hb as (Hc & Hnone & _ & _).
  split; [simpl; unfold would_change; by rewrite !orb_true_r|].
  unfold answers, put. simpl. rewrite !length_map_to_list.
  rewrite map_filter_insert_True by by apply reconciled_matches.
  apply map_size_insert_None, map_lookup_filter_None. by left.
Qed.

(** The lookup has one answer exactly when the filtered map is a singleton. *)
Lemma answers_singleton c id e :
  answers p c = [(id, e)] →
  filter (matches (name p) (cidr_block p)) (vpcs c) = {[id := e]}.
Proof.
  unfold answers. intros Ha.
  rewrite <- (list_to_map_to_list (filter _ _)), Ha. done.
Qed.

Lemma answers_nil c :
  answers p c = [] ↔ filter (matches (name p) (cidr_block p)) (vpcs c) = ∅.
Proof. apply map_to_list_empty_iff. Qed.

(** A real run of the [absent] branch that exits normally, in full. *)
Lemma cloud_absent_exact c c1 r l1 :
  state p = absent → multi_ok p = false →
  run (main boto_exception p false) c = (ExitJson r, c1, l1) →
  (answers p c = [] ∧ c1 = c ∧ changed r = false)
  ∨ ∃ id e, answers p c = [(id, e)] ∧ vpcs c !! id = Some e
      ∧ e_dependents e = false ∧ c1 = remove id c ∧ changed r = true
      ∧ l1 = [GetAllVpcs (ByFilters (name p) (cidr_block p)); DeleteVpc id].
Proof.
  intros Hs Hm Hrun.
  assert (Hv : valid p).
  { intros Hh. destruct (dns_support p) eqn:E; [done|].
    unfold run, main, mbind, M_bind in Hrun. by rewrite Hh, E in Hrun. }
  unfold run in Hrun. rewrite main_valid, Hs in Hrun by done.
  rewrite main_absent_eq in Hrun. cbn [get_all_vpcs delete_vpc connection] in Hrun.
  rewrite find_answers, Hm in Hrun.
  destruct (answers p c) as [|[id e] [|kv rest]] eqn:Ea; simpl in Hrun; [| |done].
  - injection Hrun as <- <- _. by left.
  - assert (vpcs c !! id = Some e) as He.
    { assert ((id, e) ∈ answers p c) as Hin by (rewrite Ea; apply list_elem_of_here).
      by apply answers_lookup in Hin as [? _]. }
    unfold delete in Hrun. rewrite He in Hrun.
    destruct (e_dependents e) eqn:Edep; [done|]. injection Hrun as <- <- <-.
    right. by exists id, e.
Qed.

(** X16. On the reference provider, without [multi_ok], after a real run of
    the [absent] branch that exits normally nothing answers the lookup any
    more; a run that reports no change leaves the provider as it is; no VPC
    appears, and every VPC that did not answer the lookup is still there. *)
Theorem absent_run_removes_the_match (c c1 : Cloud.t) (r : result) (l1 : list call) :
  state p = absent → multi_ok p = false →
  run (main boto_exception p false) c = (ExitJson r, c1, l1) →
  answers p c1 = []
  ∧ (changed r = false → c1 = c)
  ∧ (∀ k e, vpcs c1 !! k = Some e → vpcs c !! k = Some e)
  ∧ (∀ k e, vpcs c !! k = Some e → ¬ matches (name p) (cidr_block p) (k, e) →
       vpcs c1 !! k = Some e).
Proof.
  intros Hs Hm Hrun.
  destruct (cloud_absent_exact _ _ _ _ Hs Hm Hrun)
    as [(Ha & -> & Hch)|(id & e & Ha & He & Hdep & -> & Hch & _)]; [done|].
  pose proof (answers_singleton _ _ _ Ha) as HF.
  split; [|split; [by rewrite Hch|split]].
  - apply answers_nil. simpl. by rewrite map_filter_delete, HF, delete_singleton_eq.
  - intros k e'. simpl. rewrite lookup_delete_Some. by intros [_ ?].
  - intros k e' Hk Hnm. simpl. rewrite lookup_delete_ne; [done|].
    intros <-. apply Hnm.
    assert (filter (matches (name p) (cidr_block p)) (vpcs c) !! id = Some e) as Hin
      by (rewrite HF; apply lookup_singleton_eq).
    apply map_lookup_filter_Some in Hin as [He' Hmatch]. by simplify_eq.
Qed.

(** X17. On the reference provider, without [multi_ok], the [absent] branch
    is idempotent: after a real run that exits normally, a second one only
    looks up, changes nothing and reports [changed=false]. *)
Theorem absent_twice_changes_nothing (c c1 : Cloud.t) (r : result) (l1 : list call) :
  state p = absent → multi_ok p = false →
  run (main boto_exception p false) c = (ExitJson r, c1, l1) →
  run (main boto_exception p false) c1
  = (ExitJson {| changed := false; vpc := Some None |}, c1,
     [GetAllVpcs (ByFilters (name p) (cidr_block p))]).
Proof.
  intros Hs Hm Hrun.
  assert (Hv : valid p).
  { intros Hh. destruct (dns_support p) eqn:E; [done|].
    unfold run, main, mbind, M_bind in Hrun. by rewrite Hh, E in Hrun. }
  assert (answers p c1 = []) as Ha1.
  { destruct (cloud_absent_exact _ _ _ _ Hs Hm Hrun)
      as [(Ha & -> & Hch)|(id & e & Ha & He & Hdep & -> & Hch & _)]; [done|].
    apply answers_nil. simpl.
    by rewrite map_filter_delete, (answers_singleton _ _ _ Ha), delete_singleton_eq. }
  unfold run. rewrite main_valid, Hs by done.
  rewrite main_absent_eq. cbn [get_all_vpcs connection].
  by rewrite find_answers, Hm, Ha1.
Qed.

End CloudOutcomes.

Section RoundTrip.
Import Cloud.
Variable boto_exception : exn → string.

(** X18. On the reference provider, without [multi_ok], when nothing answers
    the lookup, a real [present] run followed by a real [absent] run with the
    same parameters deletes the VPC just created and leaves the provider
    exactly as it was at the start. *)
Theorem present_then_absent_restores (p : params) (c c1 : Cloud.t) (r : result)
    (l1 : list call) :
  state p = present → multi_ok p = false → answers p c = [] →
  run (main boto_exception p false) c = (ExitJson r, c1, l1) →
  ∃ v, resource r = Some v
    ∧ run (main boto_exception (with_state absent p) false) c1
      = (ExitJson {| changed := true; vpc := Some None |}, c,
         [GetAllVpcs (ByFilters (name p) (cidr_block p)); DeleteVpc (vpc_id v)]).
Proof.
  intros Hs Hm Ha Hrun.
  assert (Hv : valid p).
  { intros Hh. destruct (dns_support p) eqn:E; [done|].
    unfold run, main, mbind, M_bind in Hrun. by rewrite Hh, E in Hrun. }
  destruct (cloud_present_exact _ _ _ _ _ _ Hs Hrun) as (cr & id & e & Hb & -> & ->).
  pose proof Hb as Hb'. unfold bound_entry in Hb'. rewrite Hm, Ha in Hb'.
  injection Hb' as <- _ _.
  apply bound_entry_inv in Hb as (Hc & Hnone & Hnew & _).
  exists (to_vpc (id, reconciled p e)). split; [done|].
  unfold run. rewrite main_valid by done.
  cbn [state with_state]. rewrite main_absent_eq.
  cbn [get_all_vpcs delete_vpc connection name cidr_block multi_ok with_state].
  rewrite Hm. unfold find.
  assert (filter (matches (name p) (cidr_block p)) (vpcs (put id (reconciled p e) c))
          = {[id := reconciled p e]}) as ->.
  { unfold put. simpl.
    rewrite map_filter_insert_True by by apply reconciled_matches.
    apply answers_nil in Ha. by rewrite Ha, insert_empty. }
  rewrite map_to_list_singleton. simpl.
  unfold delete. rewrite put_lookup.
  destruct (reconciled_fields p e) as (_ & _ & _ & _ & _ & ->).
  assert (e_dependents e = false) as -> by by rewrite Hnew.
  unfold put. simpl. rewrite delete_insert_id by done. by destruct c.
Qed.

End RoundTrip.

Section Writes.
Context {W : Type} `{conn : !VPCConnection W}.
Variable boto_exception : exn → string.

(** X19. Every call of every run carries the parameters: the lookup its
    name and CIDR block, [create_vpc] the CIDR block and tenancy,
    [create_tags] the effective tags, [associate_dhcp_options] the given
    DHCP options id (so there is none when it is not given), and the two
    attribute writes [dns_support] and [dns_hostnames]. *)
Theorem writes_carry_the_parameters (p : params) (check_mode : bool) (w : W) :
  Forall (λ c, match c with
               | CreateVpc cidr t => cidr = cidr_block p ∧ t = tenancy p
               | CreateTags _ tgs => tgs = effective_tags (tags p) (name p)
               | AssociateDhcpOptions d _ => dhcp_opts_id p = Some d
               | ModifyVpcAttribute _ (enable_dns_support b) => b = dns_support p
               | ModifyVpcAttribute _ (enable_dns_hostnames b) => b = dns_hostnames p
               | GetAllVpcs (ByFilters n cidr) => n = name p ∧ cidr = cidr_block p
               | _ => True
               end)
         (calls_of (run (main boto_exception p check_mode) w)).
Proof.
  apply emits_run. unfold main. apply emits_bind; [destruct (_ && _); emits_step|].
  intros _. destruct (state p).
  - unfold main_present, present_diff, present_lookup, present_dhcp, present_tags,
      present_finish, present_dns, present_refetch, vpc_exists, update_vpc_tags,
      update_dhcp_opts.
    destruct (dhcp_opts_id p) as [d|]; repeat emits_step; simpl; auto.
  - unfold main_absent, vpc_exists. repeat emits_step; simpl; auto.
Qed.

(** X20. In check mode, without [multi_ok], on a VPC that the lookup finds:
    the run makes two calls, the lookup and the tag listing, reports a change
    exactly when the tags or the DHCP options id differ, and returns the
    object as the lookup found it. *)
Theorem check_mode_on_an_existing_vpc (p : params) (w w1 w2 : W) (v : vpc_object)
    (pairs : list (string * string)) :
  state p = present → multi_ok p = false → valid p →
  get_all_vpcs (ByFilters (name p) (cidr_block p)) w = (inr [v], w1) →
  get_all_tags (vpc_id v) w1 = (inr pairs, w2) →
  run (main boto_exception p true) w
  = (ExitJson
       {| changed :=
            bool_decide (effective_tags (tags p) (name p) ≠ dict pairs)
            || match dhcp_opts_id p with
               | Some d => bool_decide (vpc_dhcp_options_id v ≠ d)
               | None => false
               end;
          vpc := Some (Some v) |},
     w2,
     [GetAllVpcs (ByFilters (name p) (cidr_block p)); GetAllTags (vpc_id v)]).
Proof.
  intros Hs Hm Hv Hf Ht. unfold run. rewrite main_valid, Hs by done.
  unfold main_present, present_diff, mbind, M_bind, mret, M_ret.
  rewrite present_lookup_eq, Hf, Hm. cbv beta iota zeta.
  rewrite present_dhcp_eq.
  destruct (dhcp_opts_id p) as [d|];
    [destruct (bool_decide (vpc_dhcp_options_id v ≠ d))|];
    rewrite present_tags_eq, Ht;
    destruct (bool_decide (effective_tags (tags p) (name p) ≠ dict pairs));
    cbv beta iota zeta; by rewrite present_finish_check.
Qed.

End Writes.

Section Escapes.
Context {W : Type} `{conn : !VPCConnection W}.
Variable Q : call → Prop.

Lemma raises_ret {A} (a : A) : raises_after Q (mret a : M W A).
Proof. by intros w l e w' l'. Qed.

Lemma raises_exit_json {A} r : raises_after Q (exit_json r : M W A).
Proof. by intros w l e w' l'. Qed.

Lemma raises_fail_json {A} msg : raises_after Q (fail_json msg : M W A).
Proof. by intros w l e w' l'. Qed.

Lemma raises_invoke {A} c (op : W → (exn + A) * W) : Q c → raises_after Q (invoke c op).
Proof.
  intros Hc w l e w' l'. unfold invoke. destruct (op w) as [[x|a] w1]; [|done].
  intros [= _ _ <-]. by exists l, c.
Qed.

Lemma raises_bind {A B} (m : M W A) (f : A → M W B) :
  raises_after Q m → (∀ a, raises_after Q (f a)) → raises_after Q (m ≫= f).
Proof.
  intros Hm Hf w l e w' l'. unfold mbind, M_bind.
  destruct (m w l) as [[[a|r|msg|x] w1] l1] eqn:E; try done.
  - apply Hf.
  - intros [= <- <- <-]. by apply Hm in E.
Qed.

(** An [except Exception] clause that reports lets nothing through. *)
Lemma raises_try_except_Exception {A} (m : M W A) h :
  (∀ e, raises_after Q (h e)) → raises_after Q (try_except_Exception m h).
Proof.
  intros Hh w l e w' l'. unfold try_except_Exception.
  destruct (m w l) as [[[a|r|msg|x] w1] l1]; try done. apply Hh.
Qed.

Lemma raises_try_except_BotoServerError {A} (m : M W A) h :
  raises_after Q m → (∀ e, raises_after Q (h e)) →
  raises_after Q (try_except_BotoServerError m h).
Proof.
  intros Hm Hh w l e w' l'. unfold try_except_BotoServerError.
  destruct (m w l) as [[[a|r|msg|[t| | |t]] w1] l1] eqn:E; try done.
  - apply Hh.
  - intros [= <- <- <-]. by apply Hm in E.
  - intros [= <- <- <-]. by apply Hm in E.
  - intros [= <- <- <-]. by apply Hm in E.
Qed.

(** A handler that dies on the exception it caught puts its own exception
    in its place: the last call made is still the one that raised. *)
Lemma raises_try_except_dying {A} (m : M W A) :
  raises_after Q m →
  raises_after Q (try_except_BotoServerError m (λ e, fail_json_exception e)).
Proof.
  intros Hm w l e w' l'. unfold try_except_BotoServerError, fail_json_exception, raise.
  destruct (m w l) as [[[a|r|msg|[t| | |t]] w1] l1] eqn:E; try done;
    intros [= _ <- <-]; by apply Hm in E.
Qed.

Lemma raises_vpc_exists boto_exception n cidr multi :
  raises_after Q (vpc_exists boto_exception n cidr multi : M W _).
Proof.
  intros w l e w' l'. rewrite vpc_exists_eq. repeat case_match; done.
Qed.

Lemma raises_present_refetch boto_exception check_mode v :
  (∀ id, Q (GetAllVpcs (ByIds id))) →
  raises_after Q (present_refetch boto_exception check_mode v : M W _).
Proof.
  intros HQ w l e w' l'.
  unfold present_refetch, try_except_BotoServerError, mbind, M_bind, invoke.
  destruct check_mode; simpl; [done|].
  destruct (get_all_vpcs _ w) as [[[]|[|v' vs]] w1]; try done;
    intros [= _ _ <-]; by eexists _, _.
Qed.

End Escapes.

Ltac raises_step :=
  match goal with
  | |- raises_after _ (mret _) => apply raises_ret
  | |- raises_after _ (exit_json _) => apply raises_exit_json
  | |- raises_after _ (fail_json _) => apply raises_fail_json
  | |- raises_after _ (invoke _ _) => apply raises_invoke
  | |- raises_after _ (vpc_exists _ _ _ _) => apply raises_vpc_exists
  | |- raises_after _ (present_refetch _ _ _) => apply raises_present_refetch
  | |- raises_after _ (try_except_Exception _ _) => apply raises_try_except_Exception
  | |- raises_after _ (try_except_BotoServerError _ (λ e, fail_json_exception e)) =>
      apply raises_try_except_dying
  | |- raises_after _ (try_except_BotoServerError _ _) =>
      apply raises_try_except_BotoServerError
  | |- raises_after _ (_ ≫= _) => apply raises_bind
  | |- raises_after _ (if ?b then _ else _) => destruct b
  | |- raises_after _ (match ?x with _ => _ end) => destruct x
  | |- ∀ _, _ => intro
  end.

Section Uncaught.
Context {W : Type} `{conn : !VPCConnection W}.
Variable boto_exception : exn → string.

Lemma raises_main_real p :
  raises_after unguarded (main boto_exception p false : M W _).
Proof.
  unfold main, main_present, main_absent, present_diff, present_lookup,
    present_dhcp, present_tags, present_finish, present_dns, update_vpc_tags,
    update_dhcp_opts.
  repeat raises_step; simpl; auto.
Qed.

Lemma raises_main_check p :
  raises_after (λ _, False) (main boto_exception p true : M W _).
Proof.
  unfold main, main_present, main_absent, present_diff, present_lookup,
    present_dhcp, present_tags, present_finish, present_dns, present_refetch,
    update_vpc_tags, update_dhcp_opts.
  simpl negb. cbv iota.
  repeat raises_step; simpl; auto.
Qed.

(** X21. A run ends with an uncaught exception only in a real run, and only
    right after a call to [create_vpc], [associate_dhcp_options],
    [modify_vpc_attribute], [delete_vpc] or the re-fetch by id; exceptions
    from the lookup, the tag listing and the tag write are always reported
    through [fail_json]. *)
Theorem uncaught_only_after_an_unguarded_call (p : params) (check_mode : bool)
    (w w' : W) (e : exn) (l' : list call) :
  run (main boto_exception p check_mode) w = (Uncaught e, w', l') →
  check_mode = false ∧ ∃ l0 c, l' = l0 ++ [c] ∧ unguarded c.
Proof.
  unfold run. intros Hrun. destruct check_mode.
  - by apply raises_main_check in Hrun as (? & ? & _ & ?).
  - split; [done|]. by apply raises_main_real in Hrun.
Qed.

End Uncaught.

(** * Further concrete runs *)

Lemma lookup_failure_is_reported_witness :
  run (main str app_vpc false) (Cloud.empty, 0)
  = (FailJson "RequestTimeout", (Cloud.empty, 0),
     [GetAllVpcs (ByFilters "app-vpc" "10.0.0.0/16")]).
Proof.
  exact (lookup_failure_is_reported str app_vpc false (Cloud.empty, 0) (Cloud.empty, 0)
           (BotoServerError "RequestTimeout") (λ _, eq_refl) eq_refl).
Defined.

Lemma changed_counts_the_writes_witness :
  changed (exit_of (run (main str app_vpc false) Cloud.empty))
  = existsb counted_write (calls_of (run (main str app_vpc false) Cloud.empty)).
Proof.
  exact (changed_counts_the_writes str app_vpc Cloud.empty one_vpc _ _
           scenario_first_run).
Defined.

Lemma one_vpc_lookup :
  get_all_vpcs (ByFilters "app-vpc" "10.0.0.0/16") one_vpc
  = (inr [first_match one_vpc], one_vpc).
Proof. vm_compute. reflexivity. Defined.

Lemma absent_deletes_the_match_witness :
  run (main str (with_state absent app_vpc) true) one_vpc
  = (ExitJson {| changed := true; vpc := Some None |}, one_vpc,
     [GetAllVpcs (ByFilters "app-vpc" "10.0.0.0/16")]).
Proof.
  pose proof (absent_deletes_the_match str (with_state absent app_vpc) one_vpc one_vpc
                (first_match one_vpc) eq_refl eq_refl (λ _, eq_refl) one_vpc_lookup)
    as [H _].
  exact H.
Defined.

Lemma absent_on_missing_witness :
  run (main str (with_state absent app_vpc) false) Cloud.empty
  = (ExitJson {| changed := false; vpc := Some None |}, Cloud.empty,
     [GetAllVpcs (ByFilters "app-vpc" "10.0.0.0/16")]).
Proof.
  exact (absent_on_missing str (with_state absent app_vpc) false Cloud.empty Cloud.empty
           eq_refl eq_refl (λ _, eq_refl) eq_refl).
Defined.

Lemma scenario_creation :
  create_vpc "10.0.0.0/16" tenancy_default Cloud.empty = (inr created_vpc, just_created).
Proof. vm_compute. reflexivity. Defined.

Lemma created_vpc_has_default_dhcp : vpc_dhcp_options_id created_vpc ≠ "dopt-missing".
Proof. vm_compute. discriminate. Defined.

Lemma missing_dhcp_is_refused :
  associate_dhcp_options "dopt-missing" (vpc_id created_vpc) just_created
  = (inl (BotoServerError "InvalidDhcpOptionsID.NotFound: dopt-missing"), just_created).
Proof. vm_compute. reflexivity. Defined.

Lemma failed_association_leaves_the_new_vpc_witness :
  run (main str missing_dhcp false) Cloud.empty
  = (Uncaught TypeError, just_created,
     [GetAllVpcs (ByFilters "app-vpc" "10.0.0.0/16");
      CreateVpc "10.0.0.0/16" tenancy_default;
      AssociateDhcpOptions "dopt-missing" (vpc_id created_vpc)]).
Proof.
  exact (failed_association_leaves_the_new_vpc str missing_dhcp Cloud.empty Cloud.empty
           just_created just_created created_vpc "dopt-missing" _
           eq_refl eq_refl (λ _, eq_refl) eq_refl scenario_creation eq_refl
           created_vpc_has_default_dhcp missing_dhcp_is_refused).
Defined.

Lemma scenario_second_call :
  calls_of (run (main str app_vpc false) Cloud.empty) !! 1
  = Some (CreateVpc "10.0.0.0/16" tenancy_default).
Proof. vm_compute. reflexivity. Defined.

Lemma create_only_right_after_the_lookup_witness :
  1 = 1 ∧ false = false ∧ state app_vpc = present
  ∧ CreateVpc "10.0.0.0/16" tenancy_default
    = CreateVpc (cidr_block app_vpc) (tenancy app_vpc).
Proof.
  exact (create_only_right_after_the_lookup str app_vpc false Cloud.empty 1 _
           scenario_second_call eq_refl).
Defined.

Lemma scenario_makes_calls :
  calls_of (run (module_main str true (Some "us-east-1") None app_vpc false) Cloud.empty)
  ≠ [].
Proof. vm_compute. discriminate. Defined.

Lemma no_call_before_the_checks_pass_witness :
  true = true ∧ (∃ r, Some "us-east-1" = Some r ∧ r ≠ "")
  ∧ (None : option connect_error) = None ∧ valid app_vpc.
Proof.
  exact (no_call_before_the_checks_pass str true (Some "us-east-1") None app_vpc false
           Cloud.empty scenario_makes_calls).
Defined.

(** The scenario run on the VPC that carries the [env] tag. *)
Lemma tagged_run :
  run (main str app_vpc false) tagged_vpc
  = (ExitJson (exit_of (run (main str app_vpc false) tagged_vpc)),
     world_of (run (main str app_vpc false) tagged_vpc),
     calls_of (run (main str app_vpc false) tagged_vpc)).
Proof. vm_compute. reflexivity. Defined.

Lemma present_run_reconciles_witness :
  ∃ v e,
    resource (exit_of (run (main str app_vpc false) tagged_vpc)) = Some v
    ∧ vpc_cidr_block v = cidr_block app_vpc
    ∧ vpc_tags v
      = effective_tags (tags app_vpc) (name app_vpc)
        ∪ default ∅ (Cloud.e_tags <$> Cloud.vpcs tagged_vpc !! vpc_id v)
    ∧ (∀ k x, effective_tags (tags app_vpc) (name app_vpc) !! k = Some x →
         vpc_tags v !! k = Some x)
    ∧ (∀ d, dhcp_opts_id app_vpc = Some d → vpc_dhcp_options_id v = d)
    ∧ Cloud.vpcs (world_of (run (main str app_vpc false) tagged_vpc)) !! vpc_id v
      = Some e
    ∧ v = Cloud.to_vpc (vpc_id v, e)
    ∧ Cloud.e_dns_support e = dns_support app_vpc
    ∧ Cloud.e_dns_hostnames e = dns_hostnames app_vpc.
Proof.
  exact (present_run_reconciles str app_vpc tagged_vpc _ _ _ eq_refl tagged_run).
Defined.

(** The [env] tag is still there after the run that did not ask for it. *)
Example stale_tag_is_kept :
  (vpc_tags <$> resource (exit_of (run (main str app_vpc false) tagged_vpc)))
  = Some {["Name" := "app-vpc"; "env" := "staging"]}.
Proof. vm_compute. reflexivity. Qed.

Lemma present_run_touches_one_entry_witness :
  ∃ v, resource (exit_of (run (main str app_vpc false) Cloud.empty)) = Some v
    ∧ (∀ k, k ≠ vpc_id v → Cloud.vpcs one_vpc !! k = Cloud.vpcs Cloud.empty !! k)
    ∧ Cloud.dhcp_options one_vpc = Cloud.dhcp_options Cloud.empty
    ∧ Cloud.default_dhcp_options_id one_vpc = Cloud.default_dhcp_options_id Cloud.empty.
Proof.
  exact (present_run_touches_one_entry str app_vpc Cloud.empty one_vpc _ _ eq_refl
           scenario_first_run).
Defined.

Lemma check_mode_predicts_the_real_run_witness :
  ∃ r' l', run (main str app_vpc true) Cloud.empty = (ExitJson r', Cloud.empty, l')
    ∧ changed r' = changed (exit_of (run (main str app_vpc false) Cloud.empty)).
Proof.
  exact (check_mode_predicts_the_real_run str app_vpc Cloud.empty one_vpc _ _
           scenario_first_run).
Defined.

Lemma duplicate_run :
  run (main str (with_multi_ok true app_vpc) false) one_vpc
  = (ExitJson (exit_of (run (main str (with_multi_ok true app_vpc) false) one_vpc)),
     world_of (run (main str (with_multi_ok true app_vpc) false) one_vpc),
     calls_of (run (main str (with_multi_ok true app_vpc) false) one_vpc)).
Proof. vm_compute. reflexivity. Defined.

Lemma duplicates_grow_by_one_witness :
  changed (exit_of (run (main str (with_multi_ok true app_vpc) false) one_vpc)) = true
  ∧ length (answers (with_multi_ok true app_vpc)
              (world_of (run (main str (with_multi_ok true app_vpc) false) one_vpc)))
    = S (length (answers (with_multi_ok true app_vpc) one_vpc)).
Proof.
  exact (duplicates_grow_by_one str (with_multi_ok true app_vpc) one_vpc _ _ _
           eq_refl eq_refl duplicate_run).
Defined.

Lemma removal_run :
  run (main str (with_state absent app_vpc) false) one_vpc
  = (ExitJson (exit_of (run (main str (with_state absent app_vpc) false) one_vpc)),
     Cloud.empty,
     calls_of (run (main str (with_state absent app_vpc) false) one_vpc)).
Proof. vm_compute. reflexivity. Defined.

Lemma absent_run_removes_the_match_witness :
  answers (with_state absent app_vpc) Cloud.empty = [].
Proof.
  pose proof (absent_run_removes_the_match str (with_state absent app_vpc) one_vpc
                Cloud.empty _ _ eq_refl eq_refl removal_run) as [H _].
  exact H.
Defined.

Lemma absent_twice_changes_nothing_witness :
  run (main str (with_state absent app_vpc) false) Cloud.empty
  = (ExitJson {| changed := false; vpc := Some None |}, Cloud.empty,
     [GetAllVpcs (ByFilters "app-vpc" "10.0.0.0/16")]).
Proof.
  exact (absent_twice_changes_nothing str (with_state absent app_vpc) one_vpc
           Cloud.empty _ _ eq_refl eq_refl removal_run).
Defined.

Lemma nothing_answers_at_first : answers app_vpc Cloud.empty = [].
Proof. vm_compute. reflexivity. Defined.

Lemma present_then_absent_restores_witness :
  ∃ v, resource (exit_of (run (main str app_vpc false) Cloud.empty)) = Some v
    ∧ run (main str (with_state absent app_vpc) false) one_vpc
      = (ExitJson {| changed := true; vpc := Some None |}, Cloud.empty,
         [GetAllVpcs (ByFilters (name app_vpc) (cidr_block app_vpc));
          DeleteVpc (vpc_id v)]).
Proof.
  exact (present_then_absent_restores str app_vpc Cloud.empty one_vpc _ _
           eq_refl eq_refl nothing_answers_at_first scenario_first_run).
Defined.

Lemma one_vpc_tags :
  get_all_tags (vpc_id (first_match one_vpc)) one_vpc = (inr (listed_tags one_vpc), one_vpc).
Proof. vm_compute. reflexivity. Defined.

Lemma check_mode_on_an_existing_vpc_witness :
  run (main str app_vpc true) one_vpc
  = (ExitJson
       {| changed :=
            bool_decide (effective_tags (tags app_vpc) (name app_vpc)
                         ≠ dict (listed_tags one_vpc))
            || false;
          vpc := Some (Some (first_match one_vpc)) |},
     one_vpc,
     [GetAllVpcs (ByFilters "app-vpc" "10.0.0.0/16");
      GetAllTags (vpc_id (first_match one_vpc))]).
Proof.
  exact (check_mode_on_an_existing_vpc str app_vpc one_vpc one_vpc one_vpc
           (first_match one_vpc) (listed_tags one_vpc)
           eq_refl eq_refl (λ _, eq_refl) one_vpc_lookup one_vpc_tags).
Defined.

Lemma cut_off_run :
  run (main str app_vpc false) (CutOff.Behind Cloud.empty)
  = (Uncaught (OtherException "Connection reset by peer"), CutOff.Behind Cloud.empty,
     [GetAllVpcs (ByFilters "app-vpc" "10.0.0.0/16");
      CreateVpc "10.0.0.0/16" tenancy_default]).
Proof. vm_compute. reflexivity. Defined.

Lemma uncaught_only_after_an_unguarded_call_witness :
  false = false
  ∧ ∃ l0 c, [GetAllVpcs (ByFilters "app-vpc" "10.0.0.0/16");
             CreateVpc "10.0.0.0/16" tenancy_default] = l0 ++ [c]
      ∧ unguarded c.
Proof.
  exact (uncaught_only_after_an_unguarded_call str app_vpc false _ _ _ _ cut_off_run).
Defined.
